(** * Relay pagination and global identifiers of [strawberry/relay/types.py]

    A shallow embedding of the [GlobalID], [Edge], [PageInfo] and
    [Connection] classes of [strawberry.relay.types], followed by the
    properties of the identifier codec, of node resolution and of
    [Connection.from_nodes].

    Python values are represented as follows.
    - [str] is [string]: the UTF-8 bytes of the text, one [ascii] per byte.
    - [int] is [Z] (Python integers are unbounded).
    - [Optional[T]] is [option T].
    - an exception is a constructor of [exn]; a call that may raise returns
      an [outcome]. *)

From Stdlib Require Import ZArith Lia Ascii DecimalString DecimalZ.
From stdpp Require Import base option list strings gmap.

Local Open Scope Z_scope.

(** ** Exceptions *)

(** The exception classes that the module raises.  [GlobalIDValueError] is
    declared as a subclass of [ValueError] (line 45).  The text of a
    [TypeError] contains the [repr] of Python objects and is not kept. *)
Inductive exn : Type :=
| ValueError (msg : string)
| GlobalIDValueError (msg : string)
| AssertionError
| TypeError.

(** [isinstance(e, ValueError)]. *)
Definition is_ValueError (e : exn) : bool :=
  match e with
  | ValueError _ | GlobalIDValueError _ => true
  | AssertionError | TypeError => false
  end.

(** [str(e)] for the two exceptions that carry a message. *)
Definition exn_message (e : exn) : string :=
  match e with
  | ValueError m | GlobalIDValueError m => m
  | AssertionError | TypeError => ""
  end.

Inductive outcome (A : Type) : Type :=
| Ok (a : A)
| Raise (e : exn).
Arguments Ok {A} a.
Arguments Raise {A} e.

#[global] Instance outcome_ret : MRet outcome := fun _ a => Ok a.

#[global] Instance outcome_bind : MBind outcome := fun _ _ k m =>
  match m with
  | Ok a => k a
  | Raise e => Raise e
  end.

(** [assert b]. *)
Definition py_assert (b : bool) : outcome unit :=
  if b then Ok tt else Raise AssertionError.

(** ** Text helpers *)

Definition string_eqb (a b : string) : bool := bool_decide (a = b).

(** Truth value of an [Optional[str]]: [None] and the empty string are
    false. *)
Definition truthy (o : option string) : bool :=
  match o with
  | Some (String _ _) => true
  | _ => false
  end.

Module Base64.

(** Modelled from the spec: [to_base64] and [from_base64] live in
    [strawberry/relay/utils.py], which is imported on line 36 and is not
    part of the sources at hand.  The spec describes the token as the
    base64-style encoding of the two fields joined by the separator [":"]
    (sections 4.1 and 6).  This module is the standard base64 transform
    (alphabet [A-Z a-z 0-9 + /], padding ["="]) on the bytes of the text. *)

(** Six bits, most significant first. *)
Definition sextet : Type := (bool * bool * bool * bool * bool * bool)%type.

Definition alphabet : string :=
  "ABCDEFGHIJKLMNOPQRSTUVWXYZabcdefghijklmnopqrstuvwxyz0123456789+/".

Definition pad : ascii := "="%char.

Definition bit (b : bool) : nat := if b then 1%nat else 0%nat.

Definition sextet_value (s : sextet) : nat :=
  let '(a, b, c, d, e, f) := s in
  (32 * bit a + 16 * bit b + 8 * bit c + 4 * bit d + 2 * bit e + bit f)%nat.

Definition sextet_of_value (n : nat) : sextet :=
  (Nat.testbit n 5, Nat.testbit n 4, Nat.testbit n 3,
   Nat.testbit n 2, Nat.testbit n 1, Nat.testbit n 0).

Fixpoint char_at (n : nat) (s : string) : ascii :=
  match s, n with
  | EmptyString, _ => pad
  | String c _, O => c
  | String _ r, S m => char_at m r
  end.

Fixpoint index_of (c : ascii) (s : string) : option nat :=
  match s with
  | EmptyString => None
  | String d r => if Ascii.eqb c d then Some O else S <$> index_of c r
  end.

Definition encode_sextet (s : sextet) : ascii := char_at (sextet_value s) alphabet.

Definition decode_sextet (c : ascii) : option sextet :=
  sextet_of_value <$> index_of c alphabet.

(** Three bytes are cut into four sextets. [Ascii] lists its bits least
    significant first. *)
Definition encode3 (x y z : ascii) : string :=
  let 'Ascii x0 x1 x2 x3 x4 x5 x6 x7 := x in
  let 'Ascii y0 y1 y2 y3 y4 y5 y6 y7 := y in
  let 'Ascii z0 z1 z2 z3 z4 z5 z6 z7 := z in
  String (encode_sextet (x7, x6, x5, x4, x3, x2))
 (String (encode_sextet (x1, x0, y7, y6, y5, y4))
 (String (encode_sextet (y3, y2, y1, y0, z7, z6))
 (String (encode_sextet (z5, z4, z3, z2, z1, z0)) EmptyString))).

Definition encode2 (x y : ascii) : string :=
  let 'Ascii x0 x1 x2 x3 x4 x5 x6 x7 := x in
  let 'Ascii y0 y1 y2 y3 y4 y5 y6 y7 := y in
  String (encode_sextet (x7, x6, x5, x4, x3, x2))
 (String (encode_sextet (x1, x0, y7, y6, y5, y4))
 (String (encode_sextet (y3, y2, y1, y0, false, false))
 (String pad EmptyString))).

Definition encode1 (x : ascii) : string :=
  let 'Ascii x0 x1 x2 x3 x4 x5 x6 x7 := x in
  String (encode_sextet (x7, x6, x5, x4, x3, x2))
 (String (encode_sextet (x1, x0, false, false, false, false))
 (String pad (String pad EmptyString))).

Fixpoint b64encode (s : string) : string :=
  match s with
  | EmptyString => EmptyString
  | String x EmptyString => encode1 x
  | String x (String y EmptyString) => encode2 x y
  | String x (String y (String z r)) => encode3 x y z +:+ b64encode r
  end.

Definition byte1 (p q : sextet) : ascii :=
  let '(p5, p4, p3, p2, p1, p0) := p in
  let '(q5, q4, _, _, _, _) := q in
  Ascii q4 q5 p0 p1 p2 p3 p4 p5.

Definition byte2 (q r : sextet) : ascii :=
  let '(_, _, q3, q2, q1, q0) := q in
  let '(r5, r4, r3, r2, _, _) := r in
  Ascii r2 r3 r4 r5 q0 q1 q2 q3.

Definition byte3 (r t : sextet) : ascii :=
  let '(_, _, _, _, r1, r0) := r in
  let '(t5, t4, t3, t2, t1, t0) := t in
  Ascii t0 t1 t2 t3 t4 t5 r0 r1.

(** A full group of four characters gives three bytes. *)
Definition decode4 (a b c d : ascii) : option string :=
  p ← decode_sextet a; q ← decode_sextet b;
  r ← decode_sextet c; t ← decode_sextet d;
  Some (String (byte1 p q) (String (byte2 q r) (String (byte3 r t) EmptyString))).

(** The last group may end in one or two padding characters. *)
Definition decode_last (a b c d : ascii) : option string :=
  if Ascii.eqb d pad then
    if Ascii.eqb c pad then
      p ← decode_sextet a; q ← decode_sextet b;
      Some (String (byte1 p q) EmptyString)
    else
      p ← decode_sextet a; q ← decode_sextet b; r ← decode_sextet c;
      Some (String (byte1 p q) (String (byte2 q r) EmptyString))
  else decode4 a b c d.

(** Fails ([None]) on a text whose length is not a multiple of four, on a
    character outside the alphabet and on padding anywhere but at the end. *)
Fixpoint b64decode (s : string) : option string :=
  match s with
  | EmptyString => Some EmptyString
  | String a (String b (String c (String d r))) =>
      match r with
      | EmptyString => decode_last a b c d
      | String _ _ => h ← decode4 a b c d; t ← b64decode r; Some (h +:+ t)
      end
  | _ => None
  end.

Definition separator : ascii := ":"%char.

(** The part of [s] before the first [sep], and the parts after it. *)
Fixpoint parts (sep : ascii) (s : string) : string * list string :=
  match s with
  | EmptyString => (EmptyString, [])
  | String c r =>
      let '(p, ps) := parts sep r in
      if Ascii.eqb c sep then (EmptyString, p :: ps) else (String c p, ps)
  end.

(** [s.split(sep)]: the parts of [s] between the occurrences of [sep]; a
    text without [sep] is one part. *)
Definition split (sep : ascii) (s : string) : list string :=
  let '(p, ps) := parts sep s in p :: ps.

Fixpoint contains (c : ascii) (s : string) : bool :=
  match s with
  | EmptyString => false
  | String d r => Ascii.eqb d c || contains c r
  end.

End Base64.

(** ** Python integers and text *)

Module PyInt.

(** [str(n)] for an [int]: decimal digits, with a leading ["-"] below zero. *)
Definition str (n : Z) : string := NilZero.string_of_int (Z.to_int n).

(** The characters that [str.isspace] accepts among the first 128. *)
Definition is_space (c : ascii) : bool :=
  let n := nat_of_ascii c in
  ((9 <=? n) && (n <=? 13) || (28 <=? n) && (n <=? 32))%nat.

Fixpoint lstrip (s : string) : string :=
  match s with
  | String c r => if is_space c then lstrip r else s
  | EmptyString => EmptyString
  end.

Fixpoint rstrip (s : string) : string :=
  match s with
  | EmptyString => EmptyString
  | String c r =>
      match rstrip r with
      | EmptyString => if is_space c then EmptyString else String c EmptyString
      | r' => String c r'
      end
  end.

Definition strip (s : string) : string := rstrip (lstrip s).

(** Digits, with single underscores allowed between two digits.
    [after_digit] tells whether the previous character was a digit. *)
Fixpoint digits (after_digit : bool) (s : string) : option Decimal.uint :=
  match s with
  | EmptyString => if after_digit then Some Decimal.Nil else None
  | String c r =>
      if Ascii.eqb c "_" then
        if after_digit then digits false r else None
      else uint_of_char c (digits true r)
  end.

(** [int(s)] for a [str] of the first 128 characters: surrounding white
    space is dropped, a sign may precede the digits. [None] stands for the
    [ValueError] that [int] raises. *)
Definition parse (s : string) : option Z :=
  match strip s with
  | EmptyString => None
  | String c r =>
      if Ascii.eqb c "-" then
        d ← digits false r; Some (Z.of_int (Decimal.Neg d))
      else if Ascii.eqb c "+" then
        d ← digits false r; Some (Z.of_int (Decimal.Pos d))
      else
        d ← digits false (String c r); Some (Z.of_int (Decimal.Pos d))
  end.

(** The ten decimal digits, and the texts made of them. *)
Definition is_digit (c : ascii) : bool :=
  match uint_of_char c (Some Decimal.Nil) with
  | Some _ => true
  | None => false
  end.

Fixpoint digit_string (s : string) : bool :=
  match s with
  | EmptyString => true
  | String c r => is_digit c && digit_string r
  end.

Definition int (s : string) : outcome Z :=
  match parse s with
  | Some n => Ok n
  | None =>
      Raise (ValueError ("invalid literal for int() with base 10: '" +:+ s +:+ "'"))
  end.

End PyInt.

(** [sys.maxsize] of a 64-bit interpreter. *)
Definition sys_maxsize : Z := 2 ^ 63 - 1.

(** ** Identifier codec *)

(** Modelled from the spec: [to_base64] of [strawberry/relay/utils.py],
    which is not part of the sources at hand.  Section 4.1: the token joins
    the two fields with the separator and applies the base64 transform;
    section 6 gives the joined text as ["<type-name>:<value>"]. *)
Definition to_base64 (type_ node_id : string) : string :=
  Base64.b64encode (type_ +:+ String Base64.separator node_id).

(** Modelled from the spec: [from_base64] of [strawberry/relay/utils.py],
    which is not part of the sources at hand.  Section 4.1: the decoder
    reverses the transform and splits on the separator; it fails with a
    [ValueError] when the token is not validly encoded, is not splittable
    into exactly two parts, or has an empty part, and raises nothing else.
    The text is split on every separator: a text without one, or with two
    or more, is refused.  The messages are not given by the spec. *)
Definition from_base64 (value : string) : outcome (string * string) :=
  match Base64.b64decode value with
  | None => Raise (ValueError "invalid base64 token")
  | Some text =>
      match Base64.split Base64.separator text with
      | [a; b] =>
          match a, b with
          | EmptyString, _ | _, EmptyString =>
              Raise (ValueError "expected 2 non-empty items")
          | _, _ => Ok (a, b)
          end
      | _ => Raise (ValueError "expected to contain 2 items")
      end
  end.

Definition connection_typename : string := "arrayconnection".

(** ** GlobalID (lines 49-235) *)

Record GlobalID : Type := mkGlobalID { type_name : string; node_id : string }.

#[global] Instance GlobalID_eq_dec : EqDecision GlobalID.
Proof. solve_decision. Defined.

(** The constructor with [__post_init__] (lines 76-84).  Both fields are
    typed [string] here, so that the two [isinstance(_, str)] tests hold. *)
Definition GlobalID_init (type_name node_id : string) : outcome GlobalID :=
  Ok (mkGlobalID type_name node_id).

(** [GlobalID.__str__] (lines 86-87). *)
Definition GlobalID_str (self : GlobalID) : string :=
  to_base64 (type_name self) (node_id self).

(** [GlobalID.from_id] (lines 89-111): a [ValueError] of the decoder is
    raised again as a [GlobalIDValueError] with the same message; any other
    exception passes through. *)
Definition from_id (value : string) : outcome GlobalID :=
  match from_base64 value with
  | Ok (type_name, node_id) => GlobalID_init type_name node_id
  | Raise e =>
      if is_ValueError e then Raise (GlobalIDValueError (exn_message e))
      else Raise e
  end.

(** ** Node resolution (lines 113-235) *)

(** A value that is produced later: [await] gives its result or raises. *)
Inductive awaitable (A : Type) : Type := Deferred (result : outcome A).
Arguments Deferred {A} result.

Definition await {A : Type} (a : awaitable A) : outcome A :=
  match a with Deferred r => r end.

(** The [ensure_type] argument: a class, [Union[C1, ..., Cn]] of classes,
    or [Awaitable[...]] of one of these (the overloads of lines 140-178).
    Classes are known by name. *)
Inductive type_hint : Type :=
| Class (name : string)
| UnionOf (members : list string)
| AwaitableOf (arg : type_hint).

Section Resolver.

(** The objects that nodes resolve to, with the class of each and the
    subclass relation of the program. *)
Context {entity : Type}.
Variable class_of : entity -> string.
Variable issubclass : string -> string -> bool.

(** The class of an awaited result, which may be [None]. *)
Definition class_of_result (o : option entity) : string :=
  match o with
  | Some e => class_of e
  | None => "NoneType"
  end.

(** What a [resolve_node] callback returns: [None], a node, or an
    awaitable of either. *)
Inductive node_value : Type :=
| NoNode
| ANode (e : entity)
| Later (a : awaitable (option entity)).

(** A class of the program: whether it derives from [Node], and its
    [resolve_node] classmethod, given the node id and [required]. *)
Record py_class : Type := mkClass {
  cls_name : string;
  cls_is_node : bool;
  cls_resolve_node : string -> bool -> outcome node_value
}.

(** [TypeDefinition.origin]: a class, or a [LazyType] that resolves to one. *)
Inductive origin_ref : Type :=
| Plain (c : py_class)
| LazyType (c : py_class).

(** What [schema.get_type_by_name] finds: an object type definition, or a
    definition of another sort (scalar, enum, union). *)
Inductive schema_type : Type :=
| TypeDefinition (origin : origin_ref)
| OtherDefinition.

Record Schema : Type := mkSchema {
  schema_id : Z;
  get_type_by_name : string -> option schema_type
}.

Record Info : Type := mkInfo { schema : Schema }.

(** The mutable state around a resolution: the class attribute
    [_nodes_cache] (line 71) and the calls made to [resolve_node]
    callbacks, oldest first, as (class, node id, required). *)
Record world : Type := mkWorld {
  nodes_cache : gmap (Z * string) py_class;
  calls : list (string * string * bool)
}.

(** [GlobalID.resolve_type] (lines 113-138). *)
Definition resolve_type (self : GlobalID) (info : Info) (w : world)
  : world * outcome py_class :=
  let key := (schema_id (schema info), type_name self) in
  match nodes_cache w !! key with
  | Some origin => (w, Ok origin)
  | None =>
      match get_type_by_name (schema info) (type_name self) with
      | Some (TypeDefinition o) =>
          let origin := match o with Plain c => c | LazyType c => c end in
          if cls_is_node origin
          then (mkWorld (<[key := origin]> (nodes_cache w)) (calls w), Ok origin)
          else (w, Raise AssertionError)
      | Some OtherDefinition | None => (w, Raise AssertionError)
      end
  end.

(** Lines 214-216: [Awaitable[T]] is replaced by [T].  A class has no
    origin and is kept.  The origin of a [Union] is [typing.Union], which
    is not a class: [issubclass] on line 215 raises a [TypeError]. *)
Definition unwrap_awaitable (t : type_hint) : outcome type_hint :=
  match t with
  | Class _ => Ok t
  | UnionOf _ => Raise TypeError
  | AwaitableOf a => Ok a
  end.

(** [isinstance(res, ensure_type)] after lines 218-220 turned a union into
    the tuple of its members.  A subscripted generic that is left makes
    [isinstance] itself raise a [TypeError]. *)
Definition isinstance (res : option entity) (t : type_hint) : outcome bool :=
  match t with
  | Class c => Ok (issubclass (class_of_result res) c)
  | UnionOf members =>
      Ok (existsb (issubclass (class_of_result res)) members)
  | AwaitableOf _ => Raise TypeError
  end.

(** The variable [node] of [resolve_node] as the coroutine of lines
    224-228 finds it when it runs: the awaitable that the callback
    returned, or the coroutine itself. *)
Inductive node_var : Type :=
| CallbackAwaitable (a : awaitable (option entity))
| ThisCoroutine.

(** [await node] in the coroutine (line 225).  A coroutine that awaits
    itself is running already, which is refused with a [ValueError]. *)
Definition await_node (v : node_var) : outcome (option entity) :=
  match v with
  | CallbackAwaitable a => await a
  | ThisCoroutine => Raise (ValueError "coroutine already executing")
  end.

(** The coroutine [resolve] (lines 224-228), run with the variable [node]
    holding [v]. *)
Definition resolve (v : node_var) (ensure_type : type_hint)
  : awaitable (option entity) :=
  Deferred (
    res ← await_node v;
    ok ← isinstance res ensure_type;
    if ok : bool then Ok res else Raise TypeError).

(** Lines 213-235.  Line 230 binds [node] to the coroutine before the
    coroutine runs: [node] is a variable of the enclosing call, which the
    coroutine reads when it is awaited. *)
Definition ensure (node : node_value) (ensure_type : option type_hint)
  : outcome node_value :=
  match node, ensure_type with
  | NoNode, _ | _, None => Ok node
  | Later _, Some t =>
      t ← unwrap_awaitable t;
      Ok (Later (resolve ThisCoroutine t))
  | ANode e, Some t =>
      t ← unwrap_awaitable t;
      ok ← isinstance (Some e) t;
      if ok : bool then Ok node else Raise TypeError
  end.

(** [GlobalID.resolve_node] (lines 180-235). *)
Definition resolve_node (self : GlobalID) (info : Info) (required : bool)
    (ensure_type : option type_hint) (w : world) : world * outcome node_value :=
  match resolve_type self info w with
  | (w, Raise e) => (w, Raise e)
  | (w, Ok n_type) =>
      let required := required || bool_decide (ensure_type <> None) in
      let w := mkWorld (nodes_cache w)
                 (calls w ++ [(cls_name n_type, node_id self, required)]) in
      match cls_resolve_node n_type (node_id self) required with
      | Raise e => (w, Raise e)
      | Ok node => (w, ensure node ensure_type)
      end
  end.

End Resolver.

Arguments node_value entity : clear implicits.
Arguments node_var entity : clear implicits.
Arguments py_class entity : clear implicits.
Arguments origin_ref entity : clear implicits.
Arguments schema_type entity : clear implicits.
Arguments Schema entity : clear implicits.
Arguments Info entity : clear implicits.
Arguments world entity : clear implicits.

(** ** Connections (lines 419-650) *)

(** [PageInfo] (lines 419-446). *)
Record PageInfo : Type := mkPageInfo {
  has_next_page : bool;
  has_previous_page : bool;
  start_cursor : option string;
  end_cursor : option string
}.

(** [Edge] (lines 449-470). *)
Record Edge (A : Type) : Type := mkEdge { cursor : string; node : A }.
Arguments mkEdge {A} cursor node.
Arguments cursor {A} e.
Arguments node {A} e.

(** [Edge.from_node] (lines 468-470); the cursor is an [int] at the only
    call site, and the f-string of [to_base64] writes it in decimal. *)
Definition Edge_from_node {A : Type} (v : A) (cursor : Z) : Edge A :=
  mkEdge (to_base64 connection_typename (PyInt.str cursor)) v.

(** [Connection] (lines 473-496). *)
Record Connection (A : Type) : Type := mkConnection {
  page_info : PageInfo;
  edges : list (Edge A);
  total_count : option Z
}.
Arguments mkConnection {A} page_info edges total_count.
Arguments page_info {A} c.
Arguments edges {A} c.
Arguments total_count {A} c.

(** The [nodes] argument: the items in iteration order and the parts of
    the collection protocol that [from_nodes] probes.
    - [has_count]: [nodes.count()] returns the number of items (an ORM
      query set); otherwise the call raises one of the three exceptions
      caught on line 544 (a [list] has [count], which needs an argument).
    - [is_sized]: [isinstance(nodes, Sized)].
    - [has_getitem]: [hasattr(nodes, "__getitem__")].
    A [list] is sized and indexable without [count]; a generator has none of
    the three. *)
Record collection (A : Type) : Type := mkCollection {
  items : list A;
  has_count : bool;
  is_sized : bool;
  has_getitem : bool
}.
Arguments mkCollection {A} items has_count is_sized has_getitem.
Arguments items {A} c.
Arguments has_count {A} c.
Arguments is_sized {A} c.
Arguments has_getitem {A} c.

(** [list(nodes)]. *)
Definition py_list {A : Type} (nodes : collection A) : collection A :=
  mkCollection (items nodes) false true true.

(** [len] of a list, as an [int]. *)
Definition len {A : Type} (l : list A) : Z := Z.of_nat (length l).

(** The bound that a slice index denotes on a sequence of length [n]:
    a negative index counts from the end, and both ends are clipped. *)
Definition slice_bound (n i : Z) : Z :=
  if i <? 0 then Z.max (i + n) 0 else Z.min i n.

(** [l[start:stop]] for a sequence; [stop = None] reads to the end. *)
Definition py_slice {A : Type} (l : list A) (start : Z) (stop : option Z) : list A :=
  let lo := slice_bound (len l) start in
  let hi := match stop with
            | Some e => slice_bound (len l) e
            | None => len l
            end in
  take (Z.to_nat (hi - lo)) (drop (Z.to_nat lo) l).

(** A number that fits in a [Py_ssize_t]. *)
Definition fits_ssize (n : Z) : bool :=
  (- sys_maxsize - 1 <=? n) && (n <=? sys_maxsize).

(** [itertools.islice(l, start, stop)], read to the end: the items at
    the positions from [start] up to [stop], or up to the end.  Both
    bounds are converted to [Py_ssize_t] when the slice is built: a [stop]
    that does not fit, or that is [-1], is refused first; then a [start]
    that does not fit, and any bound that is negative. *)
Definition islice {A : Type} (l : list A) (start : Z) (stop : option Z)
  : outcome (list A) :=
  if from_option (fun e => negb (fits_ssize e) || (e =? -1)) false stop then
    Raise (ValueError "Stop argument for islice() must be None or an integer: 0 <= x <= sys.maxsize.")
  else if negb (fits_ssize start) || (start <? 0)
          || from_option (fun e => e <? 0) false stop then
    Raise (ValueError "Indices for islice() must be None or an integer: 0 <= x <= sys.maxsize.")
  else
    match stop with
    | None => Ok (drop (Z.to_nat start) l)
    | Some e => Ok (take (Z.to_nat (e - start)) (drop (Z.to_nat start) l))
    end.

(** [edges[:-1]]. *)
Definition drop_last {A : Type} (l : list A) : list A :=
  take (length l - 1) l.

(** [l[0]] and [l[-1]] of a list that may be empty. *)
Definition first_item {A : Type} (l : list A) : option A := head l.
Definition last_item {A : Type} (l : list A) : option A := last l.

(** Line 549: the page size bound, fixed (the test of line 550 never
    holds). *)
Definition max_results : Z := 100.

(** Lines 540-546: a count that was not supplied is taken from
    [nodes.count()], or else from [len(nodes)] when [nodes] is sized. *)
Definition known_count {A : Type} (nodes : collection A) (total_count : option Z)
  : option Z :=
  match total_count with
  | Some n => Some n
  | None =>
      if has_count nodes then Some (len (items nodes))
      else if is_sized nodes then Some (len (items nodes))
      else None
  end.

(** Lines 557-559 and 561-563: a cursor is decoded, its namespace
    asserted, and its value read as an [int]. *)
Definition cursor_offset (value : string) : outcome Z :=
  '(cursor_type, parsed) ← from_base64 value;
  _ ← py_assert (string_eqb cursor_type connection_typename);
  PyInt.int parsed.

(** Lines 556-559. *)
Definition after_start (after : option string) (start : Z) : outcome Z :=
  if truthy after
  then n ← cursor_offset (default "" after); Ok (n + 1)
  else Ok start.

(** Lines 560-563. *)
Definition before_end (before : option string) (end_ : option Z)
  : outcome (option Z) :=
  if truthy before
  then n ← cursor_offset (default "" before); Ok (Some n)
  else Ok end_.

(** Lines 565-575. *)
Definition first_window (first : option Z) (start : Z) (end_ : option Z)
  : outcome (option Z) :=
  match first with
  | Some first =>
      if first <? 0 then
        Raise (ValueError "Argument 'first' must be a non-negative integer.")
      else if first >? max_results then
        Raise (ValueError ("Argument 'first' cannot be higher than "
                           +:+ PyInt.str max_results +:+ "."))
      else
        _ ← py_assert (bool_decide (end_ <> None));
        Ok (Some (Z.min (default 0 end_) (start + first)))
  | None => Ok end_
  end.

(** Lines 576-600; the result is [(nodes, total_count, start, end)]. *)
Definition last_window {A : Type} (last : option Z) (nodes : collection A)
    (total_count : option Z) (start : Z) (end_ : option Z)
  : outcome (collection A * option Z * Z * option Z) :=
  match last with
  | Some last =>
      if last <? 0 then
        Raise (ValueError "Argument 'last' must be a non-negative integer.")
      else if last >? max_results then
        Raise (ValueError ("Argument 'last' cannot be higher than "
                           +:+ PyInt.str max_results +:+ "."))
      else if bool_decide (end_ = Some sys_maxsize) then
        let '(nodes, total_count) :=
          match total_count with
          | None => (py_list nodes, len (items nodes))
          | Some n => (nodes, n)
          end in
        Ok (nodes, Some total_count, Z.max start (total_count - last), None)
      else
        _ ← py_assert (bool_decide (end_ <> None));
        Ok (nodes, total_count, Z.max start (default 0 end_ - last), end_)
  | None => Ok (nodes, total_count, start, end_)
  end.

(** Lines 602-611; the result is [(end, expected)]. *)
Definition clamp_window (start : Z) (end_ : option Z) : option Z * Z :=
  let end_ := if bool_decide (end_ = Some sys_maxsize)
              then Some (start + max_results) else end_ in
  let expected := match end_ with
                  | Some e => e - start
                  | None => Z.abs start
                  end in
  if expected >? max_results
  then (Some (start + max_results), start + max_results - start)
  else (end_, expected).

(** Lines 623-627: the items from [start] to [end + 1], or to the end. *)
Definition fetch {A : Type} (nodes : collection A) (start : Z) (end_ : option Z)
  : outcome (list A) :=
  let stop := (fun e => e + 1) <$> end_ in
  if has_getitem nodes
  then Ok (py_slice (items nodes) start stop)
  else islice (items nodes) start stop.

(** Lines 628-630. *)
Definition make_edges {A : Type} (start : Z) (iterator : list A) : list (Edge A) :=
  imap (fun i v => Edge_from_node v (start + Z.of_nat i)) iterator.

(** Lines 632-650. *)
Definition make_connection {A : Type} (edges : list (Edge A)) (expected start : Z)
    (total_count : option Z) : Connection A :=
  let '(edges, has_next_page) :=
    if bool_decide (len edges = expected + 1)
    then (drop_last edges, true)
    else (edges, false) in
  mkConnection
    (mkPageInfo has_next_page (bool_decide (start > 0))
       (cursor <$> first_item edges) (cursor <$> last_item edges))
    edges total_count.

(** [Connection.from_nodes] (lines 498-650).  The [info] argument and
    the extra keyword arguments are not used by the body.  The edge class
    that lines 614-622 read from the type definition is [Edge]. *)
Definition from_nodes {A : Type} (nodes : collection A)
    (total_count : option Z) (before after : option string)
    (first last : option Z) : outcome (Connection A) :=
  let total_count := known_count nodes total_count in
  let start := 0 in
  let end_ := Some (default sys_maxsize total_count) in
  start ← after_start after start;
  end_ ← before_end before end_;
  end_ ← first_window first start end_;
  '(nodes, total_count, start, end_) ←
    last_window last nodes total_count start end_;
  let '(end_, expected) := clamp_window start end_ in
  iterator ← fetch nodes start end_;
  Ok (make_connection (make_edges start iterator) expected start total_count).

(** ** Vocabulary of the statements *)

(** [cursor(k)]: the cursor of the item at offset [k] (line 629). *)
Definition cursor_of (k : Z) : string :=
  to_base64 connection_typename (PyInt.str k).

(** A text in two parts: [a], the separator, [b], with no other
    separator. *)
Definition two_parts (text a b : string) : Prop :=
  text = a +:+ String Base64.separator b
  /\ Base64.contains Base64.separator a = false
  /\ Base64.contains Base64.separator b = false.

(** The three ways in which a token fails to be an encoding: it is not
    base64; its text is not in two parts (it has no separator, or more
    than one); or one of its two parts is empty. *)
Definition malformed (value : string) : Prop :=
  Base64.b64decode value = None
  \/ (exists text, Base64.b64decode value = Some text
                   /\ forall a b, ~ two_parts text a b)
  \/ (exists text a b, Base64.b64decode value = Some text
                       /\ two_parts text a b
                       /\ (a = EmptyString \/ b = EmptyString)).

(** A non-empty cursor argument that decodes to another namespace. *)
Definition foreign_cursor (arg : option string) : Prop :=
  truthy arg = true
  /\ exists t v, from_base64 (default "" arg) = Ok (t, v)
                 /\ t <> connection_typename.

(** A cursor argument that is absent, or that the engine reads: it
    decodes in the engine's namespace to an integer. *)
Definition readable_cursor (arg : option string) : Prop :=
  truthy arg = false
  \/ exists k, cursor_offset (default "" arg) = Ok k.

(** A cursor argument that is absent, or that this engine could have
    produced: it decodes in the engine's namespace to an offset that is
    not negative. *)
Definition valid_cursor (arg : option string) : Prop :=
  truthy arg = false
  \/ exists k, 0 <= k /\ cursor_offset (default "" arg) = Ok k.

(** A [first] or [last] argument that is absent or within the bounds. *)
Definition valid_limit (arg : option Z) : Prop :=
  match arg with
  | Some n => 0 <= n <= max_results
  | None => True
  end.

(** A [first] argument that is absent or asks for at least one item. *)
Definition some_items (arg : option Z) : Prop :=
  match arg with
  | Some n => 1 <= n <= max_results
  | None => True
  end.


(** A [total_count] argument that is absent, or that is not below the
    number of items (the count itself, in particular). *)
Definition valid_count {A : Type} (nodes : collection A) (total_count : option Z)
  : Prop :=
  match total_count with
  | Some n => len (items nodes) <= n
  | None => True
  end.

(** A collection whose size is known without reading it. *)
Definition sized {A : Type} (nodes : collection A) : Prop :=
  has_count nodes = true \/ is_sized nodes = true.

(** The end of a window that is bounded by [e], after lines 602-611. *)
Definition clamped_end (s e : Z) : Z :=
  if bool_decide (e = sys_maxsize) then s + max_results
  else Z.min e (s + max_results).

(** The items of the page whose window is [s .. e], with the one that is
    fetched in excess. *)
Definition fetched {A : Type} (nodes : collection A) (s e : Z) : list A :=
  take (Z.to_nat (clamped_end s e + 1 - s)) (drop (Z.to_nat s) (items nodes)).

(** A schema with one node type, ["Fruit"], for examples: its objects are
    known by the name of their class, and its callback finds the fruit
    ["1"] only. *)
Definition fruit_class : py_class string :=
  mkClass "Fruit" true
    (fun node_id required =>
       if string_eqb node_id "1" then Ok (ANode "Fruit")
       else if required then Raise (ValueError "no such fruit")
       else Ok NoNode).

Definition fruit_info : Info string :=
  mkInfo (mkSchema 7
            (fun name => if string_eqb name "Fruit"
                         then Some (TypeDefinition (Plain fruit_class))
                         else None)).

(** The same type with a callback that is asynchronous: it returns an
    awaitable, of a fruit for the id ["1"] and of a vegetable for any
    other id. *)
Definition async_class : py_class string :=
  mkClass "Fruit" true
    (fun node_id required =>
       Ok (Later (Deferred (Ok (Some (if string_eqb node_id "1"
                                      then "Fruit" else "Vegetable")))))).

Definition async_info : Info string :=
  mkInfo (mkSchema 8
            (fun name => if string_eqb name "Fruit"
                         then Some (TypeDefinition (Plain async_class))
                         else None)).

(** ** Further vocabulary *)

(** A collection that fits in memory: its length, with a page added, stays
    below [sys.maxsize] (the length of a Python sequence never exceeds
    [sys.maxsize]). *)
Definition small {A : Type} (nodes : collection A) : Prop :=
  len (items nodes) + max_results < sys_maxsize.

(** The page size that a [first] argument asks for: [max_results] when it
    is absent. *)
Definition page_size (first : option Z) : Z := default max_results first.

(** The class attribute [_nodes_cache] holds classes that derive from
    [Node] only. *)
Definition cache_sound {entity : Type} (w : world entity) : Prop :=
  forall k c, nodes_cache w !! k = Some c -> cls_is_node c = true.

(** ** Node (lines 238-416) *)

(** The values that a [resolve_id] returns, awaitables apart: a [str], an
    [int], a [bool] (which is an [int] for [isinstance]), a [uuid.UUID],
    known by its text, or another object, known by its [repr]. *)
Inductive id_value : Type :=
| IdStr (s : string)
| IdInt (n : Z)
| IdBool (b : bool)
| IdUUID (text : string)
| IdOther (repr : string).

(** [str(v)]. *)
Definition id_str (v : id_value) : string :=
  match v with
  | IdStr s => s
  | IdInt n => PyInt.str n
  | IdBool b => if b then "True" else "False"
  | IdUUID text => text
  | IdOther repr => repr
  end.

(** [repr(v)], for the messages of lines 79 and 83. *)
Definition id_repr (v : id_value) : string :=
  match v with
  | IdStr s => "'" +:+ s +:+ "'"
  | IdUUID text => "UUID('" +:+ text +:+ "')"
  | _ => id_str v
  end.

(** [GlobalID(type_name=..., node_id=...)] on values of any type, with
    the two tests of [__post_init__] (lines 76-84). *)
Definition GlobalID_new (type_name node_id : id_value) : outcome GlobalID :=
  match type_name with
  | IdStr t =>
      match node_id with
      | IdStr n => Ok (mkGlobalID t n)
      | _ =>
          Raise (GlobalIDValueError
                   ("node_id is expected to be a string, found "
                    +:+ id_repr node_id))
      end
  | _ =>
      Raise (GlobalIDValueError
               ("type_name is expected to be a string, found "
                +:+ id_repr type_name))
  end.

(** What [resolve_id] returns: a value, or an awaitable of one. *)
Inductive id_result : Type :=
| IdNow (v : id_value)
| IdLater (a : awaitable id_value).

(** What the [id] field returns: a [GlobalID], or an awaitable of one. *)
Inductive id_field : Type :=
| GidNow (g : GlobalID)
| GidLater (a : awaitable GlobalID).

Section NodeId.

(** The objects whose [id] is asked for. *)
Context {R : Type}.

(** The two class methods of a [Node] class that [id] calls, with the
    [info] of the call built in.  [resolve_typename] returns a [str] or
    [None], as [info.path.typename] does (line 337). *)
Record node_methods : Type := mkMethods {
  resolve_id : R -> outcome id_result;
  resolve_typename : R -> outcome (option string)
}.

(** What the schema holds for the parent type of the field (line 274):
    an object type definition, whose origin may define [resolve_id], or a
    definition of another sort. *)
Inductive parent_def : Type :=
| ParentTypeDefinition (origin_resolve_id : option (R -> outcome id_result))
| ParentOtherDefinition.

(** The parts of [info] that lines 273-274 read: the name of the parent
    type, absent when an attribute on the way is missing, and the types
    of the schema. *)
Record id_info : Type := mkIdInfo {
  parent_type_name : option string;
  parent_lookup : string -> option parent_def
}.

(** Lines 272-280: the [resolve_id] of the origin of the parent type;
    [None] when the [try] ends in [RuntimeError] or [AttributeError]. *)
Definition custom_resolve_id (info : id_info) : option (R -> outcome id_result) :=
  match parent_type_name info with
  | None => None
  | Some name =>
      match parent_lookup info name with
      | Some (ParentTypeDefinition (Some f)) => Some f
      | _ => None
      end
  end.

(** Lines 267-280: the [resolve_id] that is called.  [root_class] is the
    class of [root] when [isinstance(root, Node)] holds. *)
Definition id_resolver (cls : node_methods) (root_class : option node_methods)
    (info : id_info) : R -> outcome id_result :=
  match root_class with
  | Some k => resolve_id k
  | None => default (resolve_id cls) (custom_resolve_id info)
  end.

(** Lines 283-287: the [resolve_typename] that is called. *)
Definition typename_resolver (cls : node_methods)
    (root_class : option node_methods) : R -> outcome (option string) :=
  match root_class with
  | Some k => resolve_typename k
  | None => resolve_typename cls
  end.

(** [Node.id] (lines 261-308). *)
Definition Node_id (cls : node_methods) (root_class : option node_methods)
    (info : id_info) (root : R) : outcome id_field :=
  node_id ← id_resolver cls root_class info root;
  type_name ← typename_resolver cls root_class root;
  _ ← py_assert (truthy type_name);
  let type_name := IdStr (default EmptyString type_name) in
  match node_id with
  | IdNow (IdStr s) =>
      g ← GlobalID_new type_name (IdStr s); Ok (GidNow g)
  | IdNow (IdInt _ as v) | IdNow (IdBool _ as v) | IdNow (IdUUID _ as v) =>
      g ← GlobalID_new type_name (IdStr (id_str v)); Ok (GidNow g)
  | IdLater a =>
      Ok (GidLater (Deferred (v ← await a; GlobalID_new type_name v)))
  | IdNow (IdOther _ as v) =>
      g ← GlobalID_new type_name v; Ok (GidNow g)
  end.

End NodeId.

Arguments node_methods R : clear implicits.
Arguments parent_def R : clear implicits.
Arguments id_info R : clear implicits.

(** The ids that [Node.id] takes at once: a [str], or a value that line
    294 converts to one. *)
Definition plain_id (v : id_value) : bool :=
  match v with
  | IdOther _ => false
  | _ => true
  end.

(** The class of an origin. *)
Definition origin_class {entity : Type} (o : origin_ref entity) : py_class entity :=
  match o with
  | Plain c => c
  | LazyType c => c
  end.

(** Whether the schema of [info] knows [name] as an object type that
    derives from [Node]. *)
Definition node_type_of {entity : Type} (info : Info entity) (name : string)
  : option (py_class entity) :=
  match get_type_by_name (schema info) name with
  | Some (TypeDefinition o) =>
      if cls_is_node (origin_class o) then Some (origin_class o) else None
  | _ => None
  end.

(** A node class for examples: its objects are numbers, which are their
    own ids, and their type name is ["Fruit"]. *)
Definition fruit_methods : node_methods Z :=
  mkMethods (fun root => Ok (IdNow (IdInt root))) (fun _ => Ok (Some "Fruit")).

Definition no_parent : id_info Z := mkIdInfo None (fun _ => None).

(** The same class with ids that are awaited, and with ids that are
    floating-point numbers. *)
Definition later_methods : node_methods Z :=
  mkMethods (fun root => Ok (IdLater (Deferred (Ok (IdInt root)))))
            (fun _ => Ok (Some "Fruit")).

Definition float_methods : node_methods Z :=
  mkMethods (fun _ => Ok (IdNow (IdOther "3.5"))) (fun _ => Ok (Some "Fruit")).

(** An [info] whose parent type is ["Fruit"], with an origin that gives
    a [UUID] for an id. *)
Definition uuid_parent : id_info Z :=
  mkIdInfo (Some "Fruit")
    (fun name =>
       if string_eqb name "Fruit"
       then Some (ParentTypeDefinition
                    (Some (fun _ => Ok (IdNow (IdUUID "123e4567-e89b-12d3-a456-426614174000")))))
       else None).

(** An offset behind which a page can be read from an iterator: the end
    of the page, with the item that is fetched in excess, stays within
    [sys.maxsize]. *)
Definition in_reach (k : Z) : Prop := k + max_results + 2 <= sys_maxsize.

(** A cursor argument and a count that are in reach, when there is one. *)
Definition cursor_in_reach (arg : option string) : Prop :=
  forall k, cursor_offset (default "" arg) = Ok k -> in_reach k.

Definition count_in_reach {A : Type} (nodes : collection A)
    (total_count : option Z) : Prop :=
  forall n, known_count nodes total_count = Some n -> in_reach n.

(** * Properties *)

(** ** The base64 transform *)

Module Base64Facts.
Import Base64.

Lemma decode_encode_sextet (s : sextet) : decode_sextet (encode_sextet s) = Some s.
Proof. destruct s as [[[[[[] []] []] []] []] []]; reflexivity. Qed.

Lemma encode_sextet_not_pad (s : sextet) : Ascii.eqb (encode_sextet s) pad = false.
Proof. destruct s as [[[[[[] []] []] []] []] []]; reflexivity. Qed.

Lemma decode4_encode3 (x y z : ascii) :
  exists a b c d,
    encode3 x y z = String a (String b (String c (String d EmptyString)))
    /\ Ascii.eqb d pad = false
    /\ decode4 a b c d = Some (String x (String y (String z EmptyString))).
Proof.
  destruct x as [x0 x1 x2 x3 x4 x5 x6 x7], y as [y0 y1 y2 y3 y4 y5 y6 y7],
    z as [z0 z1 z2 z3 z4 z5 z6 z7].
  eexists _, _, _, _. split; [reflexivity|]. split; [apply encode_sextet_not_pad|].
  unfold decode4. rewrite !decode_encode_sextet. reflexivity.
Qed.

Lemma decode_last_encode2 (x y : ascii) :
  exists a b c,
    encode2 x y = String a (String b (String c (String pad EmptyString)))
    /\ decode_last a b c pad = Some (String x (String y EmptyString)).
Proof.
  destruct x as [x0 x1 x2 x3 x4 x5 x6 x7], y as [y0 y1 y2 y3 y4 y5 y6 y7].
  eexists _, _, _. split; [reflexivity|].
  unfold decode_last. rewrite encode_sextet_not_pad, !decode_encode_sextet.
  reflexivity.
Qed.

Lemma decode_last_encode1 (x : ascii) :
  exists a b,
    encode1 x = String a (String b (String pad (String pad EmptyString)))
    /\ decode_last a b pad pad = Some (String x EmptyString).
Proof.
  destruct x as [x0 x1 x2 x3 x4 x5 x6 x7].
  eexists _, _. split; [reflexivity|].
  unfold decode_last. rewrite !decode_encode_sextet. reflexivity.
Qed.

Lemma append_cons (a : ascii) (s t : string) : String a s +:+ t = String a (s +:+ t).
Proof. reflexivity. Qed.

Lemma append_nil_l (t : string) : EmptyString +:+ t = t.
Proof. reflexivity. Qed.

(** Induction on a text three bytes at a time. *)
Lemma string_ind3 (P : string -> Prop) :
  P EmptyString ->
  (forall x, P (String x EmptyString)) ->
  (forall x y, P (String x (String y EmptyString))) ->
  (forall x y z r, P r -> P (String x (String y (String z r)))) ->
  forall s, P s.
Proof.
  intros H0 H1 H2 H3.
  assert (H : forall s, P s /\ (forall x, P (String x s))
                        /\ (forall x y, P (String x (String y s)))).
  { induction s as [|c s (IH0 & IH1 & IH2)]; [by auto|].
    split; [apply IH1|]. split; [intros; apply IH2|].
    intros x y. by apply H3. }
  intros s. apply H.
Qed.

Lemma b64encode_nonempty (c : ascii) (s : string) :
  exists a r, b64encode (String c s) = String a r.
Proof.
  destruct s as [|y [|z r]]; cbn [b64encode].
  - destruct (decode_last_encode1 c) as (a & b & -> & _). eauto.
  - destruct (decode_last_encode2 c y) as (a & b & d & -> & _). eauto.
  - destruct (decode4_encode3 c y z) as (a & b & d & e & -> & _).
    rewrite append_cons. eauto.
Qed.

(** Decoding undoes encoding, for every text. *)
Lemma b64decode_b64encode (s : string) : b64decode (b64encode s) = Some s.
Proof.
  induction s as [|x|x y|x y z r IH] using string_ind3.
  - reflexivity.
  - cbn [b64encode]. destruct (decode_last_encode1 x) as (a & b & -> & H). exact H.
  - cbn [b64encode]. destruct (decode_last_encode2 x y) as (a & b & c & -> & H).
    exact H.
  - cbn [b64encode].
    destruct (decode4_encode3 x y z) as (a & b & c & d & -> & Hd & H).
    rewrite !append_cons, append_nil_l. destruct r as [|c0 r].
    + cbn [b64encode b64decode]. unfold decode_last. by rewrite Hd.
    + destruct (b64encode_nonempty c0 r) as (a' & r' & Hr).
      rewrite Hr in *. cbn [b64decode]. cbn [b64decode] in IH.
      rewrite H. cbn [mbind option_bind]. 
      change (match r' with String _ _ => _ | _ => _ end)
        with (b64decode (String a' r')) in *.
      rewrite IH. reflexivity.
Qed.

End Base64Facts.

(** ** Decimal text of integers *)

Module PyIntFacts.
Import PyInt.

Lemma is_digit_plain (c : ascii) :
  is_digit c = true ->
  is_space c = false /\ Ascii.eqb c "_" = false
  /\ Ascii.eqb c "-" = false /\ Ascii.eqb c "+" = false
  /\ Ascii.eqb c Base64.separator = false.
Proof.
  destruct c as [[] [] [] [] [] [] [] []]; cbv; intros; try discriminate; auto.
Qed.

Lemma digit_string_of_uint (d : Decimal.uint) :
  digit_string (NilEmpty.string_of_uint d) = true.
Proof. induction d; cbn; auto. Qed.

Lemma lstrip_digits (s : string) : digit_string s = true -> lstrip s = s.
Proof.
  destruct s as [|c r]; [done|]. cbn. intros [Hc _]%andb_prop.
  apply is_digit_plain in Hc as (-> & _). done.
Qed.

Lemma rstrip_digits (s : string) : digit_string s = true -> rstrip s = s.
Proof.
  induction s as [|c r IH]; [done|]. cbn. intros [Hc Hr]%andb_prop.
  rewrite (IH Hr). apply is_digit_plain in Hc as (-> & _). by destruct r.
Qed.

Lemma digits_digit_string (b : bool) (s : string) :
  digit_string s = true -> b = true \/ s <> EmptyString ->
  digits b s = NilEmpty.uint_of_string s.
Proof.
  revert b. induction s as [|c r IH]; intros b Hs Hb.
  - destruct Hb as [->|]; done.
  - cbn in Hs. apply andb_prop in Hs as [Hc Hr]. cbn.
    apply is_digit_plain in Hc as (_ & -> & _). rewrite IH; auto.
Qed.

Lemma string_of_uint_nonempty (d : Decimal.uint) :
  NilZero.string_of_uint d <> EmptyString.
Proof. by destruct d. Qed.

Lemma string_of_uint_digits (d : Decimal.uint) :
  digit_string (NilZero.string_of_uint d) = true.
Proof. destruct d; try apply (digit_string_of_uint (_ _)); reflexivity. Qed.

Lemma uint_of_string_of_uint (d : Decimal.uint) :
  exists d', NilEmpty.uint_of_string (NilZero.string_of_uint d) = Some d'
             /\ Z.of_uint d' = Z.of_uint d.
Proof.
  destruct d; try (eexists; split; [apply (NilEmpty.usu (_ _))|done]).
  by exists (Decimal.D0 Decimal.Nil).
Qed.

Lemma parse_digits_text (s : string) :
  digit_string s = true -> s <> EmptyString ->
  parse s = d ← NilEmpty.uint_of_string s; Some (Z.of_uint d).
Proof.
  intros Hs Hne. unfold parse, strip.
  rewrite (lstrip_digits _ Hs), (rstrip_digits _ Hs).
  destruct s as [|c r]; [done|].
  pose proof Hs as Hc. cbn in Hc. apply andb_prop in Hc as [Hc _].
  apply is_digit_plain in Hc as (_ & _ & Hm & Hp & _).
  rewrite Hm, Hp. by rewrite digits_digit_string by (try done; by right).
Qed.

Lemma parse_minus_digits_text (s : string) :
  digit_string s = true -> s <> EmptyString ->
  parse (String "-" s) = d ← NilEmpty.uint_of_string s; Some (Z.of_int (Decimal.Neg d)).
Proof.
  intros Hs Hne. unfold parse, strip. cbn [lstrip].
  change (is_space "-") with false. cbv iota.
  assert (rstrip (String "-" s) = String "-" s) as ->.
  { cbn [rstrip]. rewrite (rstrip_digits _ Hs). by destruct s. }
  change (Ascii.eqb "-" "-") with true. cbv iota.
  by rewrite digits_digit_string by auto.
Qed.

(** [int(str(n)) == n]. *)
Lemma parse_str (n : Z) : parse (str n) = Some n.
Proof.
  unfold str. rewrite <- (DecimalZ.of_to n) at 2.
  destruct (Z.to_int n) as [d|d]; cbn [NilZero.string_of_int].
  - rewrite parse_digits_text
      by auto using string_of_uint_digits, string_of_uint_nonempty.
    destruct (uint_of_string_of_uint d) as (d' & -> & Hd). cbn. by rewrite Hd.
  - rewrite parse_minus_digits_text
      by auto using string_of_uint_digits, string_of_uint_nonempty.
    destruct (uint_of_string_of_uint d) as (d' & -> & Hd). cbn.
    unfold Z.of_uint in *. 
    f_equal. lia.
Qed.

Lemma int_str (n : Z) : int (str n) = Ok n.
Proof. unfold int. by rewrite parse_str. Qed.

(** The decimal text of an integer has no separator in it. *)
Lemma str_no_separator (n : Z) : Base64.contains Base64.separator (str n) = false.
Proof.
  assert (H : forall s, digit_string s = true ->
                        Base64.contains Base64.separator s = false).
  { induction s as [|c r IH]; [done|]. cbn. intros [Hc Hr]%andb_prop.
    apply is_digit_plain in Hc as (_ & _ & _ & _ & ->). auto. }
  unfold str. destruct (Z.to_int n) as [d|d]; cbn [NilZero.string_of_int].
  - apply H, string_of_uint_digits.
  - cbn. apply H, string_of_uint_digits.
Qed.

Lemma str_nonempty (n : Z) : str n <> EmptyString.
Proof.
  unfold str. destruct (Z.to_int n) as [d|d]; cbn [NilZero.string_of_int];
    [apply string_of_uint_nonempty|done].
Qed.

End PyIntFacts.

(** ** The identifier codec *)

Section Codec.
Import Base64 Base64Facts.

Lemma parts_no_separator (sep : ascii) (s : string) :
  contains sep s = false -> parts sep s = (s, []).
Proof.
  induction s as [|c s IH]; cbn [contains parts]; [done|].
  intros [Hc Hs]%orb_false_elim. by rewrite (IH Hs), Hc.
Qed.

Lemma parts_append (sep : ascii) (t v : string) :
  contains sep t = false ->
  parts sep (t +:+ String sep v) = (t, split sep v).
Proof.
  unfold split. induction t as [|c t IH]; cbn [contains].
  - intros _. rewrite append_nil_l. cbn [parts]. rewrite Ascii.eqb_refl.
    by destruct (parts sep v).
  - intros [Hc Ht]%orb_false_elim. rewrite append_cons. cbn [parts].
    rewrite (IH Ht), Hc. by destruct (parts sep v).
Qed.

Lemma parts_head (sep : ascii) (s p : string) (ps : list string) :
  parts sep s = (p, ps) -> contains sep p = false.
Proof.
  revert p ps. induction s as [|c s IH]; intros p ps; cbn [parts].
  - by intros [= <- _].
  - destruct (parts sep s) as [q qs]. destruct (Ascii.eqb c sep) eqn:Hc.
    + by intros [= <- _].
    + intros [= <- _]. cbn [contains]. rewrite Hc. by eapply IH.
Qed.

Lemma parts_tail (sep : ascii) (s p q : string) (qs : list string) :
  parts sep s = (p, q :: qs) ->
  exists r, s = p +:+ String sep r /\ parts sep r = (q, qs).
Proof.
  revert p. induction s as [|c s IH]; intros p; cbn [parts]; [done|].
  destruct (parts sep s) as [p' ps'] eqn:Hs. destruct (Ascii.eqb c sep) eqn:Hc.
  - intros [= <- <- <-]. apply Ascii.eqb_eq in Hc as ->.
    exists s. by rewrite append_nil_l.
  - intros [= <- ->]. destruct (IH p' eq_refl) as (r & -> & Hr).
    exists r. by rewrite append_cons.
Qed.

Lemma parts_one (sep : ascii) (s p : string) :
  parts sep s = (p, []) -> s = p.
Proof.
  revert p. induction s as [|c s IH]; intros p; cbn [parts].
  - by intros [= <-].
  - destruct (parts sep s) as [p' ps']. destruct (Ascii.eqb c sep); [done|].
    intros [= <- ->]. by rewrite (IH p').
Qed.

(** A text splits into exactly two parts when it is the two parts
    around the only separator. *)
Lemma split_two (s a b : string) :
  split separator s = [a; b] <-> two_parts s a b.
Proof.
  unfold split, two_parts. split.
  - destruct (parts separator s) as [p ps] eqn:Hs. intros [= -> ->].
    pose proof (parts_head _ _ _ _ Hs) as Ha.
    apply parts_tail in Hs as (r & -> & Hr).
    pose proof (parts_head _ _ _ _ Hr) as Hb.
    apply parts_one in Hr as ->. done.
  - intros (-> & Ha & Hb). rewrite parts_append by done.
    unfold split. by rewrite parts_no_separator.
Qed.

(** Decoding a token gives back its two fields when both are non-empty
    and neither holds the separator. *)
Lemma from_base64_to_base64 (t v : string) :
  t <> EmptyString -> v <> EmptyString ->
  contains separator t = false -> contains separator v = false ->
  from_base64 (to_base64 t v) = Ok (t, v).
Proof.
  intros Ht Hv Hsep Hsep'. unfold from_base64, to_base64.
  rewrite b64decode_b64encode.
  assert (split separator (t +:+ String separator v) = [t; v]) as ->
    by by apply split_two.
  by destruct t, v.
Qed.

(** The fields of a decoded token are non-empty and hold no separator;
    the text of the token is the two fields around the separator. *)
Lemma from_base64_fields (value t v : string) :
  from_base64 value = Ok (t, v) ->
  t <> EmptyString /\ v <> EmptyString
  /\ contains separator t = false /\ contains separator v = false
  /\ b64decode value = Some (t +:+ String separator v).
Proof.
  unfold from_base64. destruct (b64decode value) as [text|]; [|done].
  destruct (split separator text) as [|a [|b [|c l]]] eqn:Hs; try done.
  apply split_two in Hs as (-> & Ha & Hb).
  destruct a, b; try done; intros [= <- <-]; done.
Qed.

(** The decoder raises nothing but [ValueError]. *)
Lemma from_base64_raises (value : string) (e : exn) :
  from_base64 value = Raise e -> exists msg, e = ValueError msg.
Proof.
  unfold from_base64. repeat case_match; intros [= <-]; eauto.
Qed.

Lemma to_base64_nonempty (t v : string) : truthy (Some (to_base64 t v)) = true.
Proof.
  unfold to_base64. destruct t as [|c t].
  - rewrite append_nil_l.
    by destruct (b64encode_nonempty separator v) as (a & r & ->).
  - rewrite append_cons.
    by destruct (b64encode_nonempty c (t +:+ String separator v)) as (a & r & ->).
Qed.

Lemma cursor_offset_cursor_of (k : Z) : cursor_offset (cursor_of k) = Ok k.
Proof.
  unfold cursor_offset, cursor_of.
  rewrite from_base64_to_base64
    by (try done; first [apply PyIntFacts.str_nonempty
                        |apply PyIntFacts.str_no_separator]).
  cbn. apply PyIntFacts.int_str.
Qed.

Lemma truthy_cursor_of (k : Z) : truthy (Some (cursor_of k)) = true.
Proof. apply to_base64_nonempty. Qed.

End Codec.

(** ** Slices *)

Lemma sys_maxsize_pos : 100 < sys_maxsize.
Proof. unfold sys_maxsize. lia. Qed.

Lemma sys_maxsize_large : 1000 < sys_maxsize.
Proof. unfold sys_maxsize. lia. Qed.

Section Slices.
Context {A : Type}.
Implicit Types (l : list A) (s e : Z) (nodes : collection A).

Lemma len_nonneg l : 0 <= len l.
Proof. unfold len. lia. Qed.

Lemma slice_bound_nonneg n i : 0 <= i -> slice_bound n i = Z.min i n.
Proof. unfold slice_bound. intros. case_match; lia. Qed.

(** With bounds that are not negative, a slice is a [take] of a [drop]. *)
Lemma py_slice_to l s e :
  0 <= s -> 0 <= e ->
  py_slice l s (Some e) = take (Z.to_nat (e - s)) (drop (Z.to_nat s) l).
Proof.
  intros Hs He. unfold py_slice. rewrite !slice_bound_nonneg by done.
  unfold len. destruct (decide (s <= Z.of_nat (length l))) as [Hle|Hgt].
  - rewrite (Z.min_l s) by done.
    destruct (decide (e <= Z.of_nat (length l))).
    + by rewrite (Z.min_l e).
    + rewrite (Z.min_r e) by lia.
      rewrite !take_ge; [done|rewrite length_drop; lia..].
  - rewrite (Z.min_r s) by lia.
    rewrite !(drop_ge l) by lia. by destruct (Z.to_nat _), (Z.to_nat _).
Qed.

Lemma py_slice_from l s :
  0 <= s -> py_slice l s None = drop (Z.to_nat s) l.
Proof.
  intros Hs. unfold py_slice. rewrite !slice_bound_nonneg by done.
  unfold len. destruct (decide (s <= Z.of_nat (length l))) as [Hle|Hgt].
  - rewrite (Z.min_l s) by done. apply take_ge. rewrite length_drop. lia.
  - rewrite (Z.min_r s) by lia. rewrite !(drop_ge l) by lia.
    by destruct (Z.to_nat _).
Qed.

Lemma fits_ssize_true n : 0 <= n <= sys_maxsize -> fits_ssize n = true.
Proof.
  intros Hn. unfold fits_ssize. pose proof sys_maxsize_pos.
  apply andb_true_intro. split; apply Z.leb_le; lia.
Qed.

Lemma islice_to l s e :
  0 <= s <= sys_maxsize -> 0 <= e <= sys_maxsize ->
  islice l s (Some e) = Ok (take (Z.to_nat (e - s)) (drop (Z.to_nat s) l)).
Proof.
  intros Hs He. unfold islice. cbn [from_option].
  rewrite !fits_ssize_true by done.
  rewrite (proj2 (Z.eqb_neq e (-1))) by lia.
  by rewrite !(proj2 (Z.ltb_ge _ 0)) by lia.
Qed.

Lemma islice_from l s :
  0 <= s <= sys_maxsize -> islice l s None = Ok (drop (Z.to_nat s) l).
Proof.
  intros Hs. unfold islice. cbn [from_option].
  rewrite fits_ssize_true by done.
  by rewrite !(proj2 (Z.ltb_ge _ 0)) by lia.
Qed.

(** A bound that is too large for [islice] is refused. *)
Lemma islice_stop_too_large l s e :
  sys_maxsize < e ->
  islice l s (Some e)
  = Raise (ValueError "Stop argument for islice() must be None or an integer: 0 <= x <= sys.maxsize.").
Proof.
  intros He. unfold islice, fits_ssize. cbn [from_option].
  by rewrite (proj2 (Z.leb_gt e sys_maxsize)), andb_false_r by lia.
Qed.

(** On a window that starts and ends at offsets that are not negative,
    both ways of fetching give the same items; an iterator is read with
    bounds that stay within [sys.maxsize]. *)
Lemma fetch_to nodes s e :
  0 <= s -> 0 <= e + 1 ->
  has_getitem nodes = true \/ (s <= sys_maxsize /\ e + 1 <= sys_maxsize) ->
  fetch nodes s (Some e)
  = Ok (take (Z.to_nat (e + 1 - s)) (drop (Z.to_nat s) (items nodes))).
Proof.
  intros Hs He Hfit. unfold fetch. cbn [fmap option_fmap option_map].
  destruct (has_getitem nodes); [by rewrite py_slice_to|].
  destruct Hfit as [|[? ?]]; [done|]. by apply islice_to.
Qed.

Lemma fetch_from nodes s :
  0 <= s -> has_getitem nodes = true \/ s <= sys_maxsize ->
  fetch nodes s None = Ok (drop (Z.to_nat s) (items nodes)).
Proof.
  intros Hs Hfit. unfold fetch. cbn [fmap option_fmap option_map].
  destruct (has_getitem nodes); [by rewrite py_slice_from|].
  destruct Hfit; [done|]. by apply islice_from.
Qed.

(** The items that a fetch returns, when it returns. *)
Lemma fetch_to_Ok nodes s e (it : list A) :
  0 <= s -> 0 <= e + 1 -> fetch nodes s (Some e) = Ok it ->
  it = take (Z.to_nat (e + 1 - s)) (drop (Z.to_nat s) (items nodes)).
Proof.
  intros Hs He. unfold fetch. cbn [fmap option_fmap option_map].
  destruct (has_getitem nodes).
  - rewrite py_slice_to by done. by intros [= <-].
  - unfold islice. repeat case_match; by intros [= <-].
Qed.

Lemma fetch_from_Ok nodes s (it : list A) :
  0 <= s -> fetch nodes s None = Ok it ->
  it = drop (Z.to_nat s) (items nodes).
Proof.
  intros Hs. unfold fetch. cbn [fmap option_fmap option_map].
  destruct (has_getitem nodes).
  - rewrite py_slice_from by done. by intros [= <-].
  - unfold islice. repeat case_match; by intros [= <-].
Qed.

Lemma len_take_drop l s n :
  0 <= s -> len (take (Z.to_nat n) (drop (Z.to_nat s) l))
            = Z.max 0 (Z.min n (len l - s)).
Proof. intros Hs. unfold len. rewrite length_take, length_drop. lia. Qed.

Lemma len_drop l s : 0 <= s -> len (drop (Z.to_nat s) l) = Z.max 0 (len l - s).
Proof. intros Hs. unfold len. rewrite length_drop. lia. Qed.

Lemma len_make_edges s (it : list A) : len (make_edges s it) = len it.
Proof. unfold make_edges, len. by rewrite length_imap. Qed.

Lemma len_drop_last {B} (l : list B) : len (drop_last l) = Z.max 0 (len l - 1).
Proof. unfold drop_last, len. rewrite length_take. lia. Qed.

Lemma lookup_make_edges s (it : list A) (i : nat) :
  make_edges s it !! i = (fun v => Edge_from_node v (s + Z.of_nat i)) <$> it !! i.
Proof. unfold make_edges. apply list_lookup_imap. Qed.

End Slices.

(** ** The stages of [from_nodes] *)

Section Stages.
Context {A : Type}.
Implicit Types (nodes : collection A) (c : Connection A).

(** A page is returned exactly when every stage succeeds. *)
Lemma from_nodes_Ok nodes tc before after first last c :
  from_nodes nodes tc before after first last = Ok c <->
  exists s0 e1 e2 nodes' tc' s e3 e4 expected it,
    after_start after 0 = Ok s0
    /\ before_end before (Some (default sys_maxsize (known_count nodes tc))) = Ok e1
    /\ first_window first s0 e1 = Ok e2
    /\ last_window last nodes (known_count nodes tc) s0 e2 = Ok (nodes', tc', s, e3)
    /\ clamp_window s e3 = (e4, expected)
    /\ fetch nodes' s e4 = Ok it
    /\ c = make_connection (make_edges s it) expected s tc'.
Proof.
  unfold from_nodes. split.
  - destruct (after_start after 0) as [s0|] eqn:H1; [|done].
    cbn [mbind outcome_bind].
    destruct (before_end before _) as [e1|] eqn:H2; [|done].
    cbn [mbind outcome_bind].
    destruct (first_window first s0 e1) as [e2|] eqn:H3; [|done].
    cbn [mbind outcome_bind].
    destruct (last_window last nodes _ s0 e2) as [[[[nodes' tc'] s] e3]|] eqn:H4;
      [|done].
    cbn [mbind outcome_bind].
    destruct (clamp_window s e3) as [e4 expected] eqn:H5.
    destruct (fetch nodes' s e4) as [it|] eqn:H6; [|done].
    cbn [mbind outcome_bind]. intros [= <-].
    by exists s0, e1, e2, nodes', tc', s, e3, e4, expected, it.
  - intros (s0 & e1 & e2 & nodes' & tc' & s & e3 & e4 & expected & it
            & -> & -> & H3 & H4 & H5 & H6 & ->).
    cbn [mbind outcome_bind]. rewrite H3. cbn [mbind outcome_bind].
    rewrite H4. cbn [mbind outcome_bind]. rewrite H5, H6. done.
Qed.

(** The first stage that raises decides the exception. *)
Lemma from_nodes_after_raises nodes tc before after first last e :
  after_start after 0 = Raise e ->
  from_nodes nodes tc before after first last = Raise e.
Proof. unfold from_nodes. by intros ->. Qed.

Lemma from_nodes_before_raises nodes tc before after first last s0 e :
  after_start after 0 = Ok s0 ->
  before_end before (Some (default sys_maxsize (known_count nodes tc))) = Raise e ->
  from_nodes nodes tc before after first last = Raise e.
Proof. unfold from_nodes. by intros -> ->. Qed.



End Stages.

(** ** Cursors *)

Lemma after_start_absent (after : option string) (s : Z) :
  truthy after = false -> after_start after s = Ok s.
Proof. unfold after_start. by intros ->. Qed.

Lemma before_end_absent (before : option string) (e : option Z) :
  truthy before = false -> before_end before e = Ok e.
Proof. unfold before_end. by intros ->. Qed.

Lemma after_start_cursor (k s : Z) :
  after_start (Some (cursor_of k)) s = Ok (k + 1).
Proof.
  unfold after_start. rewrite truthy_cursor_of.
  change (default "" (Some (cursor_of k))) with (cursor_of k).
  by rewrite cursor_offset_cursor_of.
Qed.

Lemma before_end_cursor (k : Z) (e : option Z) :
  before_end (Some (cursor_of k)) e = Ok (Some k).
Proof.
  unfold before_end. rewrite truthy_cursor_of.
  change (default "" (Some (cursor_of k))) with (cursor_of k).
  by rewrite cursor_offset_cursor_of.
Qed.

Lemma after_start_valid (after : option string) (s0 : Z) :
  valid_cursor after -> after_start after 0 = Ok s0 -> 0 <= s0.
Proof.
  unfold after_start. intros [->|(k & Hk & Hoff)]; [by intros [= <-]|].
  case_match; [|by intros [= <-]]. rewrite Hoff. cbn. intros [= <-]. lia.
Qed.

Lemma before_end_valid (before : option string) (e0 : Z) (e1 : option Z) :
  valid_cursor before -> 0 <= e0 -> before_end before (Some e0) = Ok e1 ->
  exists e, e1 = Some e /\ 0 <= e.
Proof.
  unfold before_end. intros [->|(k & Hk & Hoff)] He0; [intros [= <-]; eauto|].
  case_match; [|intros [= <-]; eauto]. rewrite Hoff. cbn. intros [= <-]. eauto.
Qed.

(** A cursor of another namespace fails the assertion. *)
Lemma cursor_offset_foreign (arg : option string) :
  foreign_cursor arg -> cursor_offset (default "" arg) = Raise AssertionError.
Proof.
  intros (_ & t & v & Hd & Hne). unfold cursor_offset. rewrite Hd.
  cbn [mbind outcome_bind]. unfold string_eqb.
  by rewrite bool_decide_false.
Qed.

(** What a cursor argument can raise: an assertion failure when the
    namespace is foreign, a [ValueError] otherwise. *)
Lemma cursor_offset_raises (arg : option string) (e : exn) :
  truthy arg = true -> cursor_offset (default "" arg) = Raise e ->
  is_ValueError e = true \/ (e = AssertionError /\ foreign_cursor arg).
Proof.
  intros Ht. unfold cursor_offset.
  destruct (from_base64 (default "" arg)) as [[t v]|e'] eqn:Hd.
  - cbn [mbind outcome_bind]. unfold string_eqb. case_bool_decide as Hns.
    + cbn [py_assert mbind outcome_bind]. unfold PyInt.int.
      destruct (PyInt.parse v); [done|]. intros [= <-]. by left.
    + cbn [py_assert mbind outcome_bind]. intros [= <-]. right.
      split; [done|]. split; [done|]. eauto.
  - cbn [mbind outcome_bind]. intros [= <-].
    apply from_base64_raises in Hd as [msg ->]. by left.
Qed.

(** ** Windows *)

#[local] Opaque sys_maxsize.

Section Windows.
Context {A : Type}.
Implicit Types (nodes : collection A) (c : Connection A).

Lemma edges_make_connection (es : list (Edge A)) expected s tc :
  edges (make_connection es expected s tc)
  = if bool_decide (len es = expected + 1) then drop_last es else es.
Proof. unfold make_connection. by case_bool_decide. Qed.

Lemma page_info_make_connection (es : list (Edge A)) expected s tc :
  has_next_page (page_info (make_connection es expected s tc))
    = bool_decide (len es = expected + 1)
  /\ has_previous_page (page_info (make_connection es expected s tc))
    = bool_decide (s > 0).
Proof. unfold make_connection. by case_bool_decide. Qed.

Lemma first_window_Ok first s (e1 : Z) e2 :
  first_window first s (Some e1) = Ok e2 ->
  match first with
  | None => e2 = Some e1
  | Some f => 0 <= f <= max_results /\ e2 = Some (Z.min e1 (s + f))
  end.
Proof.
  unfold first_window. destruct first as [f|]; [|by intros [= <-]].
  destruct (Z.ltb_spec f 0); [done|].
  destruct (Z.gtb_spec f max_results); [done|].
  rewrite bool_decide_true by done. cbn. intros [= <-]. split; [lia|done].
Qed.

Lemma last_window_Ok last nodes kc s0 (e2 : Z) nodes' tc' s e3 :
  last_window last nodes kc s0 (Some e2) = Ok (nodes', tc', s, e3) ->
  match last with
  | None => nodes' = nodes /\ tc' = kc /\ s = s0 /\ e3 = Some e2
  | Some l =>
      0 <= l <= max_results
      /\ if bool_decide (e2 = sys_maxsize) then
           let n := default (len (items nodes)) kc in
           nodes' = match kc with Some _ => nodes | None => py_list nodes end
           /\ tc' = Some n /\ s = Z.max s0 (n - l) /\ e3 = None
         else
           nodes' = nodes /\ tc' = kc /\ s = Z.max s0 (e2 - l) /\ e3 = Some e2
  end.
Proof.
  unfold last_window. destruct last as [l|]; [|by intros [= <- <- <- <-]].
  destruct (Z.ltb_spec l 0); [done|].
  destruct (Z.gtb_spec l max_results); [done|].
  intros Hw. split; [lia|]. destruct (decide (e2 = sys_maxsize)) as [He|He].
  - rewrite bool_decide_true in Hw by congruence. rewrite bool_decide_true by done.
    destruct kc; by injection Hw as <- <- <- <-.
  - rewrite bool_decide_false in Hw by congruence. rewrite bool_decide_false by done.
    rewrite bool_decide_true in Hw by done. by injection Hw as <- <- <- <-.
Qed.

(** The window of a call whose cursors are valid and whose count, when
    supplied, is not below the number of items: it starts at an offset
    that is not negative and spans at most [max_results] items. *)
Lemma window_valid nodes tc before after first last
    s0 e1 e2 nodes' tc' s e3 e4 expected :
  valid_cursor before -> valid_cursor after ->
  valid_count nodes tc ->
  after_start after 0 = Ok s0 ->
  before_end before (Some (default sys_maxsize (known_count nodes tc))) = Ok e1 ->
  first_window first s0 e1 = Ok e2 ->
  last_window last nodes (known_count nodes tc) s0 e2 = Ok (nodes', tc', s, e3) ->
  clamp_window s e3 = (e4, expected) ->
  0 <= s /\ items nodes' = items nodes
  /\ ((exists e, e4 = Some e /\ 0 <= e /\ expected = e - s /\ expected <= max_results)
      \/ (e4 = None /\ expected = s /\ s <= max_results
          /\ len (items nodes) - s <= max_results)).
Proof.
  intros Hb Ha Htc H1 H2 H3 H4 H5.
  pose proof (len_nonneg (items nodes)) as Hlen.
  pose proof sys_maxsize_pos as HM.
  apply after_start_valid in H1; [|done].
  assert (forall n, known_count nodes tc = Some n -> len (items nodes) <= n) as Hkc.
  { unfold known_count. destruct tc as [n|]; [by intros ? [= <-]|].
    repeat case_match; intros ? [= <-]; lia. }
  apply before_end_valid in H2 as (e1' & -> & He1); [|done|]; last first.
  { destruct (known_count nodes tc) as [n|]; cbn; [specialize (Hkc n eq_refl)|]; lia. }
  apply first_window_Ok in H3.
  assert (exists e2', e2 = Some e2' /\ 0 <= e2') as (e2' & -> & He2).
  { destruct first as [f|]; [destruct H3 as [Hf ->]|subst e2];
      eexists; split; eauto; lia. }
  apply last_window_Ok in H4. unfold clamp_window, max_results in *.
  destruct last as [l|].
  - destruct H4 as [Hl H4]. destruct (decide (e2' = sys_maxsize)) as [HeM|HeM].
    + rewrite bool_decide_true in H4 by done.
      cbn zeta in H4. destruct H4 as (-> & -> & -> & ->).
      rewrite bool_decide_false in H5 by done.
      assert (len (items nodes) <= default (len (items nodes)) (known_count nodes tc)).
      { destruct (known_count nodes tc) as [n|]; cbn; [by apply Hkc|lia]. }
      split; [lia|]. split; [by destruct (known_count nodes tc)|].
      set (n := default (len (items nodes)) (known_count nodes tc)) in *.
      destruct (Z.gtb_spec (Z.abs (s0 `max` (n - l))) 100);
        injection H5 as <- <-.
      * left. eexists. split; [done|]. lia.
      * right. split; [done|]. lia.
    + rewrite bool_decide_false in H4 by done.
      destruct H4 as (-> & -> & -> & ->).
      rewrite bool_decide_false in H5 by congruence.
      split; [lia|]. split; [done|]. left.
      destruct (Z.gtb_spec (e2' - s0 `max` (e2' - l)) 100); injection H5 as <- <-;
        eexists; (split; [done|]); lia.
  - destruct H4 as (-> & -> & -> & ->).
    split; [lia|]. split; [done|]. left.
    destruct (decide (e2' = sys_maxsize)) as [HeM|HeM].
    + rewrite bool_decide_true in H5 by congruence.
      destruct (Z.gtb_spec (s0 + 100 - s0) 100); injection H5 as <- <-;
        eexists; (split; [done|]); lia.
    + rewrite bool_decide_false in H5 by congruence.
      destruct (Z.gtb_spec (e2' - s0) 100); injection H5 as <- <-;
        eexists; (split; [done|]); lia.
Qed.

End Windows.

(** ** Pages of a bounded window *)

Section Pages.
Context {A : Type}.
Implicit Types (nodes : collection A) (c : Connection A).

Lemma clamp_window_Some s e :
  clamp_window s (Some e) = (Some (clamped_end s e), clamped_end s e - s).
Proof.
  unfold clamp_window, clamped_end, max_results.
  destruct (decide (e = sys_maxsize)) as [He|He].
  - rewrite !bool_decide_true by congruence.
    destruct (Z.gtb_spec (s + 100 - s) 100); [lia|done].
  - rewrite !bool_decide_false by congruence.
    destruct (Z.gtb_spec (e - s) 100).
    + rewrite Z.min_r by lia. f_equal.
    + by rewrite Z.min_l by lia.
Qed.

Lemma clamped_end_bounds s e :
  0 <= s -> 0 <= e -> 0 <= clamped_end s e <= s + max_results.
Proof.
  intros. unfold clamped_end, max_results. case_bool_decide; lia.
Qed.

Lemma len_fetched nodes s e :
  0 <= s -> 0 <= e ->
  len (fetched nodes s e)
  = Z.max 0 (Z.min (clamped_end s e + 1 - s) (len (items nodes) - s)).
Proof. intros. unfold fetched. by rewrite len_take_drop. Qed.

Lemma lookup_fetched nodes s e (i : nat) :
  0 <= s -> Z.of_nat i < clamped_end s e + 1 - s ->
  fetched nodes s e !! i = items nodes !! (Z.to_nat s + i)%nat.
Proof.
  intros Hs Hi. unfold fetched. rewrite lookup_take_lt by lia.
  apply lookup_drop.
Qed.

(** The page of a call whose stages end in the window [s .. e]. *)
Lemma from_nodes_window nodes tc before after first last
    s0 e1 e2 nodes' tc' s e :
  after_start after 0 = Ok s0 ->
  before_end before (Some (default sys_maxsize (known_count nodes tc))) = Ok e1 ->
  first_window first s0 e1 = Ok e2 ->
  last_window last nodes (known_count nodes tc) s0 e2 = Ok (nodes', tc', s, Some e) ->
  0 <= s -> 0 <= e ->
  has_getitem nodes' = true \/ s + max_results + 1 <= sys_maxsize ->
  from_nodes nodes tc before after first last
  = Ok (make_connection (make_edges s (fetched nodes' s e))
          (clamped_end s e - s) s tc').
Proof.
  intros H1 H2 H3 H4 Hs He Hfit. apply from_nodes_Ok.
  eexists _, _, _, _, _, _, _, _, _, _.
  repeat split; try eassumption.
  - apply clamp_window_Some.
  - pose proof (clamped_end_bounds s e Hs He).
    apply fetch_to; [done|lia|]. unfold max_results in *.
    destruct Hfit; [by left|right; lia].
Qed.

Lemma head_drop_last {B} (l : list B) :
  (2 <= length l)%nat -> head (drop_last l) = head l.
Proof.
  intros Hl. unfold drop_last. rewrite !head_lookup.
  apply lookup_take_lt. lia.
Qed.

(** The first edge of a page is the item at the start of its window. *)
Lemma first_edge_of_page (it : list A) expected s tc v :
  it !! 0%nat = Some v -> 1 <= expected ->
  first_item (edges (make_connection (make_edges s it) expected s tc))
  = Some (Edge_from_node v s).
Proof.
  intros Hv Hexp. rewrite edges_make_connection. unfold first_item.
  assert (head (make_edges s it) = Some (Edge_from_node v s)) as Hhd.
  { rewrite head_lookup, lookup_make_edges, Hv. cbn. do 2 f_equal. lia. }
  case_bool_decide as Hover; [|done].
  rewrite head_drop_last; [done|]. unfold len in Hover. lia.
Qed.

End Pages.

(** Rewrites the [has_previous_page] flag of a page in the goal. *)
Ltac previous_page_flag :=
  match goal with
  | |- context [has_previous_page (page_info (make_connection ?es ?x ?s ?t))] =>
      destruct (page_info_make_connection es x s t) as [_ ->]
  end.

(** Discharges the bound of a page that starts at a small offset. *)
Ltac page_in_reach :=
  right; pose proof sys_maxsize_large; unfold in_reach, max_results in *; lia.

(** ** Pages *)

(** C10: when the cursors are valid and a supplied count is not below the
    number of items, every page that [from_nodes] returns has at most
    [max_results] (100) edges, whatever the collection and whichever of
    [before], [after], [first] and [last] are given. *)
Theorem from_nodes_at_most_max_results {A : Type} (nodes : collection A)
    (tc : option Z) (before after : option string) (first last : option Z)
    (c : Connection A) :
  valid_cursor before -> valid_cursor after -> valid_count nodes tc ->
  from_nodes nodes tc before after first last = Ok c ->
  len (edges c) <= max_results.
Proof.
  intros Hb Ha Htc
    (s0 & e1 & e2 & nodes' & tc' & s & e3 & e4 & expected & it
     & H1 & H2 & H3 & H4 & H5 & H6 & ->)%from_nodes_Ok.
  destruct (window_valid _ _ _ _ _ _ _ _ _ _ _ _ _ _ _ Hb Ha Htc H1 H2 H3 H4 H5)
    as (Hs & Hitems & Hwin).
  rewrite edges_make_connection. unfold max_results in *.
  assert (expected <= 100
          /\ len (make_edges s it) <= Z.max 0 (expected + 1)
             \/ len (make_edges s it) <= 100) as Hlen.
  { rewrite len_make_edges.
    destruct Hwin as [(e & -> & He & -> & Hexp)|(-> & -> & Hs' & Hn)].
    - apply fetch_to_Ok in H6 as ->; [|lia..].
      rewrite len_take_drop by done. lia.
    - apply fetch_from_Ok in H6 as ->; [|done].
      rewrite len_drop, Hitems by done. lia. }
  pose proof (len_nonneg (make_edges s it)).
  case_bool_decide; rewrite ?len_drop_last; lia.
Qed.

Lemma known_count_sized {A : Type} (nodes : collection A) :
  sized nodes -> known_count nodes None = Some (len (items nodes)).
Proof. unfold known_count. intros [->| ->]; [done|by destruct (has_count nodes)]. Qed.

(** C1: on a sized collection of [n] items and without pagination
    arguments, the page has [min n 100] edges, no previous page, and a
    next page exactly when [n > 100]. *)
Theorem from_nodes_no_arguments {A : Type} (nodes : collection A) :
  sized nodes ->
  exists c, from_nodes nodes None None None None None = Ok c
    /\ len (edges c) = Z.min (len (items nodes)) 100
    /\ has_previous_page (page_info c) = false
    /\ has_next_page (page_info c) = bool_decide (len (items nodes) > 100).
Proof.
  intros Hsized. pose proof (len_nonneg (items nodes)) as Hn.
  eexists. split.
  { eapply from_nodes_window; try reflexivity; [|page_in_reach].
    rewrite known_count_sized by done. exact Hn. }
  rewrite !known_count_sized by done.
  change (default sys_maxsize (Some (len (items nodes)))) with (len (items nodes)).
  destruct (page_info_make_connection
              (make_edges 0 (fetched nodes 0 (len (items nodes))))
              (clamped_end 0 (len (items nodes)) - 0) 0
              (Some (len (items nodes)))) as [-> ->].
  rewrite edges_make_connection.
  pose proof (len_fetched nodes 0 (len (items nodes)) ltac:(lia) Hn) as Hf.
  pose proof sys_maxsize_pos.
  unfold clamped_end, max_results in *.
  split; [|split; [done|]].
  - rewrite <- (len_make_edges 0) in Hf.
    repeat case_bool_decide; rewrite ?len_drop_last; lia.
  - rewrite len_make_edges.
    repeat case_bool_decide; lia.
Qed.

Lemma from_nodes_no_arguments_witness :
  exists c, from_nodes (mkCollection ["a"; "b"; "c"] false true true)
              None None None None None = Ok c
    /\ len (edges c) = Z.min 3 100
    /\ has_previous_page (page_info c) = false
    /\ has_next_page (page_info c) = bool_decide (3 > 100).
Proof.
  apply (from_nodes_no_arguments (mkCollection ["a"; "b"; "c"] false true true)).
  right. reflexivity.
Defined.

Lemma known_count_nonneg {A : Type} (nodes : collection A) (tc : option Z) :
  valid_count nodes tc ->
  len (items nodes) <= default sys_maxsize (known_count nodes tc)
  \/ known_count nodes tc = None.
Proof.
  unfold valid_count, known_count. destruct tc as [n|]; [by left|].
  intros _. repeat case_match; by (left + right).
Qed.

(** C6: with [first = 0] (no [after]; [before], [last] and the count
    valid when given), the page has no edge, and there is a next page
    exactly when the collection is not empty. *)
Theorem from_nodes_first_zero {A : Type} (nodes : collection A)
    (tc : option Z) (before after : option string) (last : option Z) :
  truthy after = false -> valid_cursor before -> valid_limit last ->
  valid_count nodes tc ->
  exists c, from_nodes nodes tc before after (Some 0) last = Ok c
    /\ edges c = []
    /\ has_next_page (page_info c) = bool_decide (len (items nodes) > 0).
Proof.
  intros Ha Hb Hl Htc. pose proof (len_nonneg (items nodes)) as Hn.
  pose proof sys_maxsize_pos as HM.
  assert (0 <= default sys_maxsize (known_count nodes tc)) as He0.
  { destruct (known_count_nonneg nodes tc Htc) as [?| ->]; [lia|cbn; lia]. }
  destruct (before_end before (Some (default sys_maxsize (known_count nodes tc))))
    as [e1|] eqn:H2; last first.
  { destruct Hb as [Hb|(k & Hk & Hoff)].
    - by rewrite before_end_absent in H2.
    - unfold before_end in H2. rewrite Hoff in H2. by case_match. }
  destruct (before_end_valid _ _ _ Hb He0 H2) as (e1' & -> & He1).
  assert (exists nodes' tc',
            last_window last nodes (known_count nodes tc) 0 (Some 0)
            = Ok (nodes', tc', 0, Some 0) /\ items nodes' = items nodes)
    as (nodes' & tc' & H4 & Hitems).
  { unfold last_window, valid_limit in *. destruct last as [l|]; [|by eauto].
    destruct (Z.ltb_spec l 0); [lia|].
    destruct (Z.gtb_spec l max_results); [lia|].
    rewrite bool_decide_false by (intros [= Heq]; lia). cbn.
    rewrite Z.max_l by lia. eauto. }
  eexists. split.
  { eapply (from_nodes_window nodes tc before after (Some 0) last);
      [by apply after_start_absent|exact H2| |exact H4|done|done|page_in_reach].
    unfold first_window. cbn. by rewrite Z.min_r by lia. }
  destruct (page_info_make_connection
              (make_edges 0 (fetched nodes' 0 0))
              (clamped_end 0 0 - 0) 0 tc') as [-> _].
  rewrite edges_make_connection.
  pose proof (len_fetched nodes' 0 0 ltac:(lia) ltac:(lia)) as Hf.
  rewrite <- (len_make_edges 0), Hitems in Hf.
  pose proof (len_drop_last (make_edges 0 (fetched nodes' 0 0))) as Hd.
  unfold clamped_end, max_results in *.
  assert (bool_decide (0 = sys_maxsize) = false) as HbM
    by (apply bool_decide_false; lia).
  rewrite HbM in *.
  split.
  - apply length_zero_iff_nil. unfold len in *.
    repeat case_bool_decide; lia.
  - repeat case_bool_decide; lia.
Qed.

Lemma from_nodes_first_zero_witness :
  exists c, from_nodes (mkCollection ["a"; "b"] false false false)
              None (Some (cursor_of 1)) None (Some 0) (Some 1) = Ok c
    /\ edges c = []
    /\ has_next_page (page_info c) = bool_decide (2 > 0).
Proof.
  apply (from_nodes_first_zero (mkCollection ["a"; "b"] false false false)
           None (Some (cursor_of 1)) None (Some 1)).
  - reflexivity.
  - right. exists 1. split; [lia|reflexivity].
  - unfold valid_limit, max_results. lia.
  - exact I.
Defined.

Lemma node_make_edges {A : Type} (s : Z) (it : list A) :
  node <$> make_edges s it = it.
Proof.
  unfold make_edges. apply list_eq. intros i.
  rewrite list_lookup_fmap, list_lookup_imap. by destruct (it !! i).
Qed.

(** C4 (amended): on a collection of [n <= 100] items, [last = n] alone
    gives a page with all [n] items and no previous page, when the
    collection is sized or [n] is not 1. *)
Theorem from_nodes_last_all {A : Type} (nodes : collection A) :
  len (items nodes) <= max_results ->
  sized nodes \/ len (items nodes) <> 1 ->
  exists c, from_nodes nodes None None None None (Some (len (items nodes))) = Ok c
    /\ node <$> edges c = items nodes
    /\ len (edges c) = len (items nodes)
    /\ has_previous_page (page_info c) = false.
Proof.
  intros Hn Hkind. pose proof (len_nonneg (items nodes)) as Hn0.
  pose proof sys_maxsize_pos as HM. unfold max_results in Hn.
  assert (forall c : Connection A,
            node <$> edges c = items nodes ->
            node <$> edges c = items nodes /\ len (edges c) = len (items nodes))
    as Hlen.
  { intros c Hc. split; [done|]. unfold len. by rewrite <- Hc, length_fmap. }
  destruct (decide (sized nodes)) as [Hsized|Hunsized].
  - (* the count is known: the window is [0 .. n] *)
    eexists. split.
    { eapply (from_nodes_window _ _ _ _ _ _ _ _ _ _ _ 0 (len (items nodes)));
        [reflexivity..| |done|done|page_in_reach].
      rewrite known_count_sized by done.
      unfold last_window, max_results.
      destruct (Z.ltb_spec (len (items nodes)) 0); [lia|].
      destruct (Z.gtb_spec (len (items nodes)) 100); [lia|].
      rewrite bool_decide_false by (intros [=]; lia). cbn.
      by rewrite Z.sub_diag. }
    match goal with |- node <$> edges ?c = _ /\ _ /\ ?P =>
      enough (node <$> edges c = items nodes /\ P) as [H1 H2]
        by (destruct (Hlen _ H1); done)
    end.
    split.
    + rewrite edges_make_connection.
      assert (fetched nodes 0 (len (items nodes)) = items nodes) as ->.
      { unfold fetched. cbn. apply take_ge. unfold clamped_end, max_results, len in *.
        case_bool_decide; lia. }
      rewrite bool_decide_false; [apply node_make_edges|].
      rewrite len_make_edges. unfold clamped_end, max_results.
      case_bool_decide; lia.
    + by previous_page_flag.
  - (* the count is not known: the collection is read into a list *)
    destruct Hkind as [?|Hne]; [done|].
    assert (known_count nodes None = None) as Hkc.
    { unfold known_count, sized in *. destruct (has_count nodes), (is_sized nodes);
        try done; exfalso; apply Hunsized; by (left + right). }
    exists (make_connection (make_edges 0 (items nodes)) 0 0
              (Some (len (items nodes)))).
    split.
    { apply from_nodes_Ok.
      exists 0, (Some sys_maxsize), (Some sys_maxsize), (py_list nodes),
        (Some (len (items nodes))), 0, None, None, 0, (items nodes).
      rewrite Hkc. repeat split.
      - unfold last_window, max_results.
        destruct (Z.ltb_spec (len (items nodes)) 0); [lia|].
        destruct (Z.gtb_spec (len (items nodes)) 100); [lia|].
        rewrite bool_decide_true by done. by rewrite Z.sub_diag.
      - unfold fetch. cbn. by rewrite py_slice_from. }
    match goal with |- node <$> edges ?c = _ /\ _ /\ ?P =>
      enough (node <$> edges c = items nodes /\ P) as [H1 H2]
        by (destruct (Hlen _ H1); done)
    end.
    split; last first.
    { by previous_page_flag. }
    rewrite edges_make_connection.
    rewrite bool_decide_false; [apply node_make_edges|].
    rewrite len_make_edges. lia.
Qed.

Lemma from_nodes_last_all_witness :
  exists c, from_nodes (mkCollection ["a"; "b"] false false false)
              None None None None (Some 2) = Ok c
    /\ node <$> edges c = ["a"; "b"]
    /\ len (edges c) = 2
    /\ has_previous_page (page_info c) = false.
Proof.
  apply (from_nodes_last_all (mkCollection ["a"; "b"] false false false)).
  - change (2 <= 100). lia.
  - right. change (2 <> 1). lia.
Defined.

(** C4, counterexample: on a list of 101 items, [last = 101] is refused,
    and no page is returned. *)
Lemma from_nodes_last_all_counterexample :
  from_nodes (mkCollection (replicate 101 "x") false true true)
    None None None None (Some 101)
  = Raise (ValueError "Argument 'last' cannot be higher than 100.")
  /\ ~ exists c,
        from_nodes (mkCollection (replicate 101 "x") false true true)
          None None None None (Some 101) = Ok c
        /\ len (edges c) = 101
        /\ has_previous_page (page_info c) = false.
Proof.
  assert (from_nodes (mkCollection (replicate 101 "x") false true true)
            None None None None (Some 101)
          = Raise (ValueError "Argument 'last' cannot be higher than 100.")) as H
    by (vm_compute; reflexivity).
  split; [exact H|]. intros (c & Hc & _). rewrite H in Hc. discriminate.
Qed.

(** On a generator of one item, [last = 1] returns no edge and reports a
    next page: the only item is taken for the one fetched in excess
    (line 606 expects [abs(start)] items when the window has no end). *)
Example from_nodes_last_one_generator :
  from_nodes (mkCollection ["a"] false false false) None None None None (Some 1)
  = Ok (mkConnection (mkPageInfo true false None None) [] (Some 1)).
Proof. vm_compute. reflexivity. Qed.

(** The same call on a list returns the item. *)
Example from_nodes_last_one_list :
  from_nodes (mkCollection ["a"] false true true) None None None None (Some 1)
  = Ok (mkConnection
          (mkPageInfo false false (Some (cursor_of 0)) (Some (cursor_of 0)))
          [mkEdge (cursor_of 0) "a"] (Some 1)).
Proof. vm_compute. reflexivity. Qed.

Section AfterCursor.
Context {A : Type}.
Implicit Types (nodes : collection A) (c : Connection A).

Lemma known_count_covers nodes tc :
  valid_count nodes tc ->
  match known_count nodes tc with
  | Some n => len (items nodes) <= n
  | None => True
  end.
Proof.
  unfold valid_count, known_count. destruct tc as [n|]; [done|].
  intros _. destruct (has_count nodes), (is_sized nodes); cbn; lia.
Qed.

(** The page that follows the cursor of offset [k]. *)
Lemma page_after_cursor nodes tc k first :
  valid_count nodes tc -> 0 <= k < len (items nodes) - 1 -> some_items first ->
  has_getitem nodes = true \/ in_reach k ->
  exists c v,
    from_nodes nodes tc None (Some (cursor_of k)) first None = Ok c
    /\ items nodes !! Z.to_nat (k + 1) = Some v
    /\ first_item (edges c) = Some (mkEdge (cursor_of (k + 1)) v)
    /\ has_previous_page (page_info c) = true.
Proof.
  intros Htc Hk Hfirst Hreach. pose proof sys_maxsize_pos as HM.
  pose proof (known_count_covers nodes tc Htc) as Hkc.
  set (e0 := default sys_maxsize (known_count nodes tc)).
  assert (k + 2 <= e0 \/ e0 = sys_maxsize) as He0.
  { unfold e0. destruct (known_count nodes tc) as [n|]; cbn; [left; lia|by right]. }
  set (e2 := match first with Some f => Z.min e0 (k + 1 + f) | None => e0 end).
  assert (first_window first (k + 1) (Some e0) = Ok (Some e2)) as H3.
  { unfold first_window, e2, some_items in *. destruct first as [f|]; [|done].
    destruct (Z.ltb_spec f 0); [lia|].
    destruct (Z.gtb_spec f max_results); [lia|]. done. }
  assert (0 <= e2 /\ 1 <= clamped_end (k + 1) e2 - (k + 1)) as [He2 Hexp].
  { unfold e2, clamped_end, some_items, max_results in *.
    destruct first as [f|]; case_bool_decide; lia. }
  destruct (lookup_lt_is_Some_2 (items nodes) (Z.to_nat (k + 1))) as [v Hv].
  { unfold len in Hk. lia. }
  exists (make_connection (make_edges (k + 1) (fetched nodes (k + 1) e2))
            (clamped_end (k + 1) e2 - (k + 1)) (k + 1) (known_count nodes tc)), v.
  split; [|split; [exact Hv|split]].
  - eapply (from_nodes_window _ _ _ _ _ _ _ _ _ _ _ (k + 1) e2);
      [apply after_start_cursor|reflexivity|exact H3|reflexivity|lia|done|].
    unfold in_reach, max_results in *. destruct Hreach; [by left|right; lia].
  - apply first_edge_of_page; [|done].
    rewrite lookup_fetched by lia. by rewrite Nat.add_0_r.
  - previous_page_flag. apply bool_decide_true. lia.
Qed.

(** The last cursor of the page of the first [f] items. *)
Lemma first_page_end_cursor nodes tc f :
  valid_count nodes tc -> 1 <= f <= max_results -> f < len (items nodes) ->
  exists c,
    from_nodes nodes tc None None (Some f) None = Ok c
    /\ has_next_page (page_info c) = true
    /\ end_cursor (page_info c) = Some (cursor_of (f - 1)).
Proof.
  intros Htc Hf Hn. pose proof sys_maxsize_pos as HM.
  pose proof (known_count_covers nodes tc Htc) as Hkc.
  set (e0 := default sys_maxsize (known_count nodes tc)).
  assert (f <= e0) as He0.
  { unfold e0, max_results in *. destruct (known_count nodes tc) as [n|]; cbn; lia. }
  assert (first_window (Some f) 0 (Some e0) = Ok (Some f)) as H3.
  { unfold first_window.
    destruct (Z.ltb_spec f 0); [lia|].
    destruct (Z.gtb_spec f max_results); [lia|]. cbn. by rewrite Z.min_r by lia. }
  assert (clamped_end 0 f = f) as Hce.
  { unfold clamped_end, max_results in *. case_bool_decide; lia. }
  eexists. split.
  { eapply (from_nodes_window _ _ _ _ _ _ _ _ _ _ _ 0 f);
      [reflexivity|reflexivity|exact H3|reflexivity|lia|lia|page_in_reach]. }
  pose proof (len_fetched nodes 0 f ltac:(lia) ltac:(lia)) as Hlen.
  rewrite <- (len_make_edges 0), Hce in Hlen.
  unfold make_connection. rewrite Hce.
  rewrite bool_decide_true by lia. cbn. split; [done|].
  unfold last_item. rewrite last_lookup. unfold drop_last.
  rewrite length_take. unfold len in *.
  rewrite lookup_take_lt by lia. rewrite lookup_make_edges.
  match goal with |- context [fetched nodes 0 f !! ?i] =>
    destruct (lookup_lt_is_Some_2 (fetched nodes 0 f) i) as [v Hv]
  end.
  { unfold make_edges in *. rewrite length_imap in *. lia. }
  rewrite Hv. cbn. unfold cursor_of. do 3 f_equal. lia.
Qed.

End AfterCursor.

(** A generator that is asked for the page behind a cursor out of reach
    is not read: [islice] refuses the end of the page. *)
Lemma from_nodes_out_of_reach {A : Type} (nodes : collection A) (k : Z) :
  has_count nodes = false -> is_sized nodes = false ->
  has_getitem nodes = false -> 0 <= k -> ~ in_reach k ->
  from_nodes nodes None None (Some (cursor_of k)) None None
  = Raise (ValueError "Stop argument for islice() must be None or an integer: 0 <= x <= sys.maxsize.").
Proof.
  intros Hcount Hsized Hget Hk Hreach. unfold from_nodes, known_count.
  rewrite Hcount, Hsized, after_start_cursor. cbn [mbind outcome_bind default].
  rewrite before_end_absent by done. cbn [mbind outcome_bind].
  cbn [first_window last_window mbind outcome_bind].
  rewrite clamp_window_Some. unfold fetch. rewrite Hget.
  cbn [fmap option_fmap option_map mbind outcome_bind].
  rewrite islice_stop_too_large; [done|].
  unfold clamped_end, in_reach, max_results in *.
  rewrite bool_decide_true by done. lia.
Qed.

(** C3 (amended): after the cursor of offset [k], with [0 <= k < n - 1],
    the page starts with the item at offset [k + 1], under the cursor of
    that offset, when the collection is indexable or the offset is in
    reach of an iterator ([k <= sys.maxsize - 102]); and the page that
    follows a page of the first [f] items, asked for with the last cursor
    of that page, starts with the next item and reports a previous
    page. *)
Theorem from_nodes_after_cursor {A : Type} (nodes : collection A) (tc : option Z) :
  valid_count nodes tc ->
  (forall k first,
     0 <= k < len (items nodes) - 1 -> some_items first ->
     has_getitem nodes = true \/ in_reach k ->
     exists c v,
       from_nodes nodes tc None (Some (cursor_of k)) first None = Ok c
       /\ items nodes !! Z.to_nat (k + 1) = Some v
       /\ first_item (edges c) = Some (mkEdge (cursor_of (k + 1)) v)
       /\ has_previous_page (page_info c) = true)
  /\ (forall f first,
        1 <= f <= max_results -> f < len (items nodes) -> some_items first ->
        exists c1 cur c2 v,
          from_nodes nodes tc None None (Some f) None = Ok c1
          /\ end_cursor (page_info c1) = Some cur
          /\ from_nodes nodes tc None (Some cur) first None = Ok c2
          /\ items nodes !! Z.to_nat f = Some v
          /\ first_item (edges c2) = Some (mkEdge (cursor_of f) v)
          /\ has_previous_page (page_info c2) = true).
Proof.
  intros Htc. split.
  - intros k first Hk Hfirst Hreach. by apply page_after_cursor.
  - intros f first Hf Hn Hfirst.
    destruct (first_page_end_cursor nodes tc f Htc Hf Hn) as (c1 & Hc1 & _ & Hcur).
    assert (0 <= f - 1 < len (items nodes) - 1) as Hk by lia.
    destruct (page_after_cursor nodes tc (f - 1) first Htc Hk Hfirst)
      as (c2 & v & Hc2 & Hv & Hhd & Hprev); [page_in_reach|].
    replace (f - 1 + 1) with f in * by lia.
    by exists c1, (cursor_of (f - 1)), c2, v.
Qed.

Lemma from_nodes_after_cursor_witness :
  exists c v,
    from_nodes (mkCollection ["a"; "b"; "c"; "d"; "e"] false true true)
      None None (Some (cursor_of 1)) (Some 2) None = Ok c
    /\ ["a"; "b"; "c"; "d"; "e"] !! Z.to_nat (1 + 1) = Some v
    /\ first_item (edges c) = Some (mkEdge (cursor_of (1 + 1)) v)
    /\ has_previous_page (page_info c) = true.
Proof.
  apply (proj1 (from_nodes_after_cursor
                  (mkCollection ["a"; "b"; "c"; "d"; "e"] false true true) None I)
           1 (Some 2)).
  - change (0 <= 1 < 5 - 1). lia.
  - change (1 <= 2 <= 100). lia.
  - left. reflexivity.
Defined.

(** C3, counterexample: a generator of [sys.maxsize - 99] items, asked
    for the page after the cursor of offset [sys.maxsize - 101].  The
    cursor is that of an item that is not the last, and no page is
    returned: the end of the page, with the item fetched in excess, is
    [sys.maxsize + 1], which [islice] on line 626 refuses before it reads
    an item. *)
Lemma from_nodes_after_cursor_counterexample :
  0 <= sys_maxsize - 101
    < len (items (mkCollection (replicate (Z.to_nat (sys_maxsize - 99)) "x")
                    false false false)) - 1
  /\ from_nodes (mkCollection (replicate (Z.to_nat (sys_maxsize - 99)) "x")
                   false false false)
       None None (Some (cursor_of (sys_maxsize - 101))) None None
     = Raise (ValueError "Stop argument for islice() must be None or an integer: 0 <= x <= sys.maxsize.")
  /\ ~ exists c v,
        from_nodes (mkCollection (replicate (Z.to_nat (sys_maxsize - 99)) "x")
                      false false false)
          None None (Some (cursor_of (sys_maxsize - 101))) None None = Ok c
        /\ first_item (edges c)
           = Some (mkEdge (cursor_of (sys_maxsize - 101 + 1)) v).
Proof.
  pose proof sys_maxsize_pos as HM.
  assert (from_nodes (mkCollection (replicate (Z.to_nat (sys_maxsize - 99)) "x")
                        false false false)
            None None (Some (cursor_of (sys_maxsize - 101))) None None
          = Raise (ValueError "Stop argument for islice() must be None or an integer: 0 <= x <= sys.maxsize."))
    as H.
  { apply from_nodes_out_of_reach; [reflexivity..| |];
      unfold in_reach, max_results; lia. }
  split; [|split; [exact H|]].
  - unfold len. cbn [items]. rewrite length_replicate. lia.
  - intros (c & v & Hc & _). rewrite H in Hc. discriminate.
Qed.

(** The scenario of the spec: pages of two over five items. *)
Example from_nodes_scenario :
  let nodes := mkCollection ["a"; "b"; "c"; "d"; "e"] false true true in
  from_nodes nodes None None None (Some 2) None
  = Ok (mkConnection
          (mkPageInfo true false (Some (cursor_of 0)) (Some (cursor_of 1)))
          [mkEdge (cursor_of 0) "a"; mkEdge (cursor_of 1) "b"] (Some 5))
  /\ from_nodes nodes None None (Some (cursor_of 1)) (Some 2) None
     = Ok (mkConnection
             (mkPageInfo true true (Some (cursor_of 2)) (Some (cursor_of 3)))
             [mkEdge (cursor_of 2) "c"; mkEdge (cursor_of 3) "d"] (Some 5))
  /\ from_nodes nodes None None (Some (cursor_of 3)) (Some 2) None
     = Ok (mkConnection
             (mkPageInfo false true (Some (cursor_of 4)) (Some (cursor_of 4)))
             [mkEdge (cursor_of 4) "e"] (Some 5)).
Proof. vm_compute. done. Qed.

(** ** Failures *)


Lemma first_window_raises (first : option Z) (s e1 : Z) (e : exn) :
  first_window first s (Some e1) = Raise e -> exists msg, e = ValueError msg.
Proof.
  unfold first_window. destruct first as [f|]; [|done].
  destruct (Z.ltb_spec f 0); [intros [= <-]; by eauto|].
  destruct (Z.gtb_spec f max_results); [intros [= <-]; by eauto|]. done.
Qed.


Lemma after_start_raises (after : option string) (s : Z) (e : exn) :
  after_start after s = Raise e ->
  is_ValueError e = true \/ (e = AssertionError /\ foreign_cursor after).
Proof.
  unfold after_start. destruct (truthy after) eqn:Ht; [|done].
  destruct (cursor_offset (default "" after)) as [n|e'] eqn:Hoff; [done|].
  intros [= <-]. by apply cursor_offset_raises.
Qed.

Lemma before_end_raises (before : option string) (e0 : option Z) (e : exn) :
  before_end before e0 = Raise e ->
  is_ValueError e = true \/ (e = AssertionError /\ foreign_cursor before).
Proof.
  unfold before_end. destruct (truthy before) eqn:Ht; [|done].
  destruct (cursor_offset (default "" before)) as [n|e'] eqn:Hoff; [done|].
  intros [= <-]. by apply cursor_offset_raises.
Qed.

Lemma before_end_Some (before : option string) (e0 : Z) (e1 : option Z) :
  before_end before (Some e0) = Ok e1 -> exists n, e1 = Some n.
Proof.
  unfold before_end. destruct (truthy before); [|intros [= <-]; by eauto].
  destruct (cursor_offset (default "" before)); [|done].
  intros [= <-]. by eauto.
Qed.




(** Without cursors, [first = 101] is refused with the message of
    line 571. *)
Example from_nodes_first_101 :
  from_nodes (mkCollection ["a"] false true true) None None None (Some 101) None
  = Raise (ValueError "Argument 'first' cannot be higher than 100.").
Proof. vm_compute. reflexivity. Qed.

(** C9 (amended): a non-empty [after] cursor of another namespace fails
    the assertion; so does such a [before] cursor when [after] is absent
    or is a cursor that the engine reads. *)
Theorem from_nodes_foreign_cursor {A : Type} (nodes : collection A)
    (tc : option Z) (before after : option string) (first last : option Z) :
  foreign_cursor after \/ (foreign_cursor before /\ readable_cursor after) ->
  from_nodes nodes tc before after first last = Raise AssertionError.
Proof.
  assert (forall arg, foreign_cursor arg -> truthy arg = true) as Htruthy
    by (by intros arg [? _]).
  intros [Ha|[Hb Ha]].
  - apply from_nodes_after_raises. unfold after_start.
    by rewrite (Htruthy _ Ha), (cursor_offset_foreign _ Ha).
  - assert (exists s0, after_start after 0 = Ok s0) as [s0 H1].
    { unfold after_start. destruct Ha as [->|[k ->]]; [by eauto|].
      case_match; by eauto. }
    eapply from_nodes_before_raises; [exact H1|]. unfold before_end.
    by rewrite (Htruthy _ Hb), (cursor_offset_foreign _ Hb).
Qed.

Lemma from_nodes_foreign_cursor_witness :
  from_nodes (mkCollection ["a"] false true true) None
    (Some (to_base64 "other" "1")) (Some (cursor_of 0)) None None
  = Raise AssertionError.
Proof.
  apply (from_nodes_foreign_cursor (mkCollection ["a"] false true true)).
  right. split.
  - split; [reflexivity|]. exists "other", "1". split; [reflexivity|discriminate].
  - right. exists 0. reflexivity.
Defined.

(** C9, counterexample: [before] is a cursor of another namespace, and
    the call fails with the [ValueError] of the [after] argument, whose
    value is not an integer. *)
Lemma from_nodes_foreign_cursor_counterexample :
  foreign_cursor (Some (to_base64 "other" "1"))
  /\ from_nodes (mkCollection ["a"] false true true) None
       (Some (to_base64 "other" "1"))
       (Some (to_base64 connection_typename "x")) None None
     = Raise (ValueError "invalid literal for int() with base 10: 'x'").
Proof.
  split; [|vm_compute; reflexivity].
  split; [reflexivity|]. exists "other", "1". split; [reflexivity|discriminate].
Qed.

(** ** The bound on the page size, on examples *)

Lemma from_nodes_at_most_max_results_witness :
  len (edges (mkConnection
                (mkPageInfo true true (Some (cursor_of 2)) (Some (cursor_of 3)))
                [mkEdge (cursor_of 2) "c"; mkEdge (cursor_of 3) "d"] (Some 5)))
  <= max_results.
Proof.
  apply (from_nodes_at_most_max_results
           (mkCollection ["a"; "b"; "c"; "d"; "e"] false true true)
           None None (Some (cursor_of 1)) (Some 2) None).
  - left. reflexivity.
  - right. exists 1. split; [lia|reflexivity].
  - exact I.
  - reflexivity.
Defined.

(** The offset of a valid cursor is not negative, and the bound needs it:
    the [before] cursor of offset -2, which no page carries, selects all
    the items of a list but the last. *)
Example from_nodes_negative_before :
  exists c,
    from_nodes (mkCollection (replicate 103 "x") false true true)
      None (Some (cursor_of (-2))) None None None = Ok c
    /\ len (edges c) = 102.
Proof. eexists. split; [vm_compute; reflexivity|reflexivity]. Qed.

(** So does a supplied count: with a count of 0 for a list of 103 items
    and a [before] cursor at [sys.maxsize], [last = 5] selects them all. *)
Example from_nodes_low_total_count :
  exists c,
    from_nodes (mkCollection (replicate 103 "x") false true true)
      (Some 0) (Some (cursor_of sys_maxsize)) None None (Some 5) = Ok c
    /\ len (edges c) = 103.
Proof. eexists. split; [vm_compute; reflexivity|reflexivity]. Qed.

(** ** Global identifiers *)

(** [from_id] raises nothing but [GlobalIDValueError], on any token. *)
Lemma from_id_raises (value : string) (e : exn) :
  from_id value = Raise e -> exists msg, e = GlobalIDValueError msg.
Proof.
  unfold from_id. destruct (from_base64 value) as [[t v]|e'] eqn:Hd; [done|].
  apply from_base64_raises in Hd as [msg ->]. cbn. intros [= <-]. by eauto.
Qed.

(** A text that does not split into two parts is not in two parts. *)
Lemma not_two_parts (text : string) :
  length (Base64.split Base64.separator text) <> 2%nat ->
  forall a b, ~ two_parts text a b.
Proof. intros Hlen a b Htp%split_two. by rewrite Htp in Hlen. Qed.

(** A token is malformed or is read: the three failures are the only
    ones. *)
Lemma from_id_reads_or_malformed (value : string) :
  malformed value
  \/ exists t v, t <> EmptyString /\ v <> EmptyString
                 /\ from_id value = Ok (mkGlobalID t v).
Proof.
  unfold malformed, from_id, from_base64.
  destruct (Base64.b64decode value) as [text|]; [|by left; left].
  destruct (Base64.split Base64.separator text) as [|a [|b [|c l]]] eqn:Hs;
    try (left; right; left; exists text; split; [done|];
         apply not_two_parts; by rewrite Hs).
  apply split_two in Hs.
  destruct a as [|c a].
  { left. right. right. exists text, EmptyString, b. by eauto. }
  destruct b as [|d b].
  { left. right. right. exists text, (String c a), EmptyString. by eauto. }
  right. by exists (String c a), (String d b).
Qed.

(** C2 (amended): a [GlobalID] whose fields are not empty and hold no
    separator is read back from its token. *)
Theorem GlobalID_roundtrip (t v : string) :
  t <> EmptyString -> v <> EmptyString ->
  Base64.contains Base64.separator t = false ->
  Base64.contains Base64.separator v = false ->
  from_id (GlobalID_str (mkGlobalID t v)) = Ok (mkGlobalID t v).
Proof.
  intros Ht Hv Hsep Hsep'. unfold from_id, GlobalID_str. cbn [type_name node_id].
  by rewrite from_base64_to_base64.
Qed.

Lemma GlobalID_roundtrip_witness :
  from_id (GlobalID_str (mkGlobalID "Fruit" "12")) = Ok (mkGlobalID "Fruit" "12").
Proof.
  apply (GlobalID_roundtrip "Fruit" "12");
    [discriminate|discriminate|reflexivity|reflexivity].
Defined.

(** C2, counterexample: a node id with the separator in it is not read
    back; the text of its token has three parts, and the token is
    refused. *)
Lemma GlobalID_roundtrip_counterexample :
  "Fruit" <> EmptyString /\ "1:2" <> EmptyString
  /\ from_id (GlobalID_str (mkGlobalID "Fruit" "1:2"))
     = Raise (GlobalIDValueError "expected to contain 2 items")
  /\ from_id (GlobalID_str (mkGlobalID "Fruit" "1:2"))
     <> Ok (mkGlobalID "Fruit" "1:2").
Proof.
  assert (from_id (GlobalID_str (mkGlobalID "Fruit" "1:2"))
          = Raise (GlobalIDValueError "expected to contain 2 items"))
    as H by (vm_compute; reflexivity).
  split; [discriminate|]. split; [discriminate|]. split; [exact H|].
  rewrite H. discriminate.
Qed.

(** The same holds of a type name with the separator in it. *)
Example GlobalID_type_name_separator :
  from_id (GlobalID_str (mkGlobalID "a:b" "c"))
  = Raise (GlobalIDValueError "expected to contain 2 items").
Proof. vm_compute. reflexivity. Qed.

(** C7: a token that is not base64, whose text is not in two parts (it
    has no separator, or more than one), or that has an empty part makes
    [from_id] raise [GlobalIDValueError], with the message of the
    decoder. *)
Theorem from_id_malformed (value : string) :
  malformed value ->
  exists msg, from_base64 value = Raise (ValueError msg)
              /\ from_id value = Raise (GlobalIDValueError msg).
Proof.
  unfold malformed, from_id, from_base64.
  intros [->|[(text & -> & Hno)|(text & a & b & -> & Htp & Hab)]];
    [by eauto| |].
  - destruct (Base64.split Base64.separator text) as [|a [|b [|c l]]] eqn:Hs;
      [by eauto..| |by eauto].
    apply split_two in Hs. by destruct (Hno a b).
  - apply split_two in Htp as ->.
    destruct Hab as [->| ->]; [by eauto|]. destruct a; by eauto.
Qed.

(** The token of ["a:b:c"], a text in three parts. *)
Lemma from_id_malformed_witness :
  exists msg, from_base64 "YTpiOmM=" = Raise (ValueError msg)
              /\ from_id "YTpiOmM=" = Raise (GlobalIDValueError msg).
Proof.
  apply (from_id_malformed "YTpiOmM="). right. left. exists "a:b:c".
  split; [reflexivity|]. apply not_two_parts. vm_compute. lia.
Defined.

(** Tokens of each sort: text that is not base64, the tokens of ["abc"]
    and ["a:b:c"], and the tokens of [":abc"] and ["abc:"]. *)
Example from_id_malformed_tokens :
  from_id "not a token" = Raise (GlobalIDValueError "invalid base64 token")
  /\ from_id (Base64.b64encode "abc")
     = Raise (GlobalIDValueError "expected to contain 2 items")
  /\ from_id (Base64.b64encode "a:b:c")
     = Raise (GlobalIDValueError "expected to contain 2 items")
  /\ from_id (to_base64 "" "abc")
     = Raise (GlobalIDValueError "expected 2 non-empty items")
  /\ from_id (to_base64 "abc" "")
     = Raise (GlobalIDValueError "expected 2 non-empty items").
Proof. vm_compute. done. Qed.

(** ** Node resolution *)

Section ResolveNode.
Context {entity : Type}.
Variable class_of : entity -> string.
Variable issubclass : string -> string -> bool.

(** The coroutine of lines 224-228, had it awaited the awaitable of the
    callback: the awaited result, which may be [None], is checked against
    the class, or against the members of the union. *)
Lemma resolve_callback_awaitable (a : awaitable (option entity)) (t : type_hint) :
  await (resolve class_of issubclass (CallbackAwaitable a) t)
  = match await a with
    | Ok res =>
        let cls := match res with Some e => class_of e | None => "NoneType" end in
        match t with
        | Class c => if issubclass cls c then Ok res else Raise TypeError
        | UnionOf ms =>
            if existsb (issubclass cls) ms then Ok res else Raise TypeError
        | AwaitableOf _ => Raise TypeError
        end
    | Raise e => Raise e
    end.
Proof.
  unfold resolve. cbn [await await_node]. destruct a as [[res|e]]; cbn [await]; [|done].
  cbn [mbind outcome_bind]. destruct t; cbn [isinstance mbind outcome_bind];
    by destruct res.
Qed.

(** The coroutine as line 230 leaves it: it awaits itself, and fails. *)
Lemma resolve_this_coroutine (t : type_hint) :
  await (resolve class_of issubclass ThisCoroutine t)
  = Raise (ValueError "coroutine already executing").
Proof. reflexivity. Qed.

(** [ensure] by cases on the node and on the expected type. *)
Lemma ensure_cases (node : node_value entity) (ensure_type : option type_hint) :
  match node, ensure_type with
  | NoNode, _ => ensure class_of issubclass node ensure_type = Ok NoNode
  | _, None => ensure class_of issubclass node ensure_type = Ok node
  | _, Some (UnionOf _) =>
      ensure class_of issubclass node ensure_type = Raise TypeError
  | ANode e, Some (Class c) | ANode e, Some (AwaitableOf (Class c)) =>
      ensure class_of issubclass node ensure_type
      = if issubclass (class_of e) c then Ok (ANode e) else Raise TypeError
  | ANode e, Some (AwaitableOf (UnionOf ms)) =>
      ensure class_of issubclass node ensure_type
      = if existsb (issubclass (class_of e)) ms
        then Ok (ANode e) else Raise TypeError
  | ANode e, Some (AwaitableOf (AwaitableOf _)) =>
      ensure class_of issubclass node ensure_type = Raise TypeError
  | Later a, Some _ =>
      exists a', ensure class_of issubclass node ensure_type = Ok (Later a')
        /\ await a' = Raise (ValueError "coroutine already executing")
  end.
Proof.
  destruct node as [|e|a], ensure_type as [[c|ms|[c|ms|t]]|]; try done;
    cbn [ensure unwrap_awaitable mbind outcome_bind isinstance class_of_result];
    try (by case_match); by eexists.
Qed.

Lemma resolve_type_calls (self : GlobalID) (info : Info entity)
    (w w1 : world entity) (r : outcome (py_class entity)) :
  resolve_type self info w = (w1, r) -> calls w1 = calls w.
Proof.
  unfold resolve_type. repeat case_match; by intros [= <- <-].
Qed.

(** C8, as the code behaves: once the type is resolved, its
    [resolve_node] callback is called once, with [required] set when it
    was asked for or when [ensure_type] is given.  A node that is
    returned at once is checked against a class, or against the members
    of an [Awaitable[Union[...]]], and [TypeError] is raised when it is
    not an instance.  The rest departs from the claim: a [Union] as
    [ensure_type] raises [TypeError] on line 215 for every node, an
    instance of a member and an awaitable included; and for an awaitable
    the coroutine that is returned awaits itself (line 230 rebinds
    [node]), so that awaiting it raises a [ValueError] whatever the
    callback resolves to, and never a [TypeError]. *)
Theorem resolve_node_ensure_type (self : GlobalID) (info : Info entity)
    (required : bool) (ensure_type : option type_hint)
    (w w1 : world entity) (n_type : py_class entity) :
  resolve_type self info w = (w1, Ok n_type) ->
  let req := required || bool_decide (ensure_type <> None) in
  exists w2 out,
    resolve_node class_of issubclass self info required ensure_type w = (w2, out)
    /\ nodes_cache w2 = nodes_cache w1
    /\ calls w2 = calls w ++ [(cls_name n_type, node_id self, req)]
    /\ match cls_resolve_node n_type (node_id self) req, ensure_type with
       | Raise e, _ => out = Raise e
       | Ok NoNode, _ => out = Ok NoNode
       | Ok node, None => out = Ok node
       | Ok _, Some (UnionOf _) => out = Raise TypeError
       | Ok (ANode e), Some (Class c)
       | Ok (ANode e), Some (AwaitableOf (Class c)) =>
           out = if issubclass (class_of e) c
                 then Ok (ANode e) else Raise TypeError
       | Ok (ANode e), Some (AwaitableOf (UnionOf ms)) =>
           out = if existsb (issubclass (class_of e)) ms
                 then Ok (ANode e) else Raise TypeError
       | Ok (ANode e), Some (AwaitableOf (AwaitableOf _)) =>
           out = Raise TypeError
       | Ok (Later a), Some _ =>
           exists a', out = Ok (Later a')
             /\ await a' = Raise (ValueError "coroutine already executing")
       end.
Proof.
  intros Hty req. unfold resolve_node. rewrite Hty. fold req.
  rewrite <- (resolve_type_calls _ _ _ _ _ Hty).
  destruct (cls_resolve_node n_type (node_id self) req) as [node|e].
  - eexists _, _. split; [reflexivity|]. split; [done|]. split; [done|].
    pose proof (ensure_cases node ensure_type) as Hens.
    by destruct node as [|e|a], ensure_type as [[c|ms|[c|ms|t]]|].
  - eexists _, _. split; [reflexivity|]. split; [done|]. split; [done|].
    by destruct ensure_type.
Qed.

End ResolveNode.

(** A schema with one node type, ["Fruit"], whose callback is
    asynchronous; objects are known by the name of their class.  The node
    ["2"] resolves to a vegetable, and [ensure_type] asks for a fruit:
    awaiting the result raises a [ValueError], not a [TypeError]. *)
Lemma resolve_node_ensure_type_witness :
  exists w2 out,
    resolve_node id String.eqb (mkGlobalID "Fruit" "2") async_info false
      (Some (Class "Fruit")) (mkWorld ∅ []) = (w2, out)
    /\ calls w2 = [("Fruit", "2", true)]
    /\ exists a', out = Ok (Later a')
         /\ await a' = Raise (ValueError "coroutine already executing").
Proof.
  assert (resolve_type (mkGlobalID "Fruit" "2") async_info (mkWorld ∅ [])
          = (mkWorld (<[(8, "Fruit") := async_class]> ∅) [], Ok async_class))
    as Hty
    by (unfold resolve_type; cbn [nodes_cache]; rewrite lookup_empty; reflexivity).
  destruct (resolve_node_ensure_type id String.eqb (mkGlobalID "Fruit" "2")
              async_info false (Some (Class "Fruit"))
              (mkWorld ∅ [])
              (mkWorld (<[(8, "Fruit") := async_class]> ∅) []) async_class
              Hty)
    as (w2 & out & Hrun & _ & Hcalls & Hout).
  exists w2, out. split; [exact Hrun|]. split; [exact Hcalls|exact Hout].
Defined.

(** The failing inputs, evaluated.  An awaitable of a vegetable where a
    fruit is expected, and an awaitable of a fruit: awaiting either
    result raises the same [ValueError]. *)
Example resolve_node_deferred_mismatch :
  exists w2 a',
    resolve_node id String.eqb (mkGlobalID "Fruit" "2") async_info false
      (Some (Class "Fruit")) (mkWorld ∅ []) = (w2, Ok (Later a'))
    /\ await a' = Raise (ValueError "coroutine already executing")
    /\ await a' <> Raise TypeError.
Proof.
  eexists _, _. split.
  { unfold resolve_node, resolve_type. cbn [nodes_cache].
    rewrite lookup_empty. reflexivity. }
  split; [reflexivity|discriminate].
Qed.

Example resolve_node_deferred_match :
  exists w2 a',
    resolve_node id String.eqb (mkGlobalID "Fruit" "1") async_info false
      (Some (Class "Fruit")) (mkWorld ∅ []) = (w2, Ok (Later a'))
    /\ await a' <> Ok (Some "Fruit").
Proof.
  eexists _, _. split.
  { unfold resolve_node, resolve_type. cbn [nodes_cache].
    rewrite lookup_empty. reflexivity. }
  discriminate.
Qed.

(** A fruit that is returned at once, where a fruit or a vegetable is
    expected: line 215 raises [TypeError]. *)
Example resolve_node_union_member :
  snd (resolve_node id String.eqb (mkGlobalID "Fruit" "1") fruit_info false
         (Some (UnionOf ["Vegetable"; "Fruit"])) (mkWorld ∅ []))
  = Raise TypeError.
Proof.
  unfold resolve_node, resolve_type. cbn [nodes_cache].
  rewrite lookup_empty. reflexivity.
Qed.

(** * Further properties of [Connection.from_nodes] *)

#[local] Transparent sys_maxsize.

Section Edges.
Context {A : Type}.
Implicit Types (nodes : collection A) (c : Connection A) (it : list A).

Lemma take_make_edges (n : nat) s it :
  take n (make_edges s it) = make_edges s (take n it).
Proof.
  apply list_eq. intros i. rewrite lookup_make_edges.
  destruct (decide (i < n)%nat).
  - by rewrite !lookup_take_lt, lookup_make_edges by done.
  - by rewrite !lookup_take_ge by lia.
Qed.

Lemma drop_last_make_edges s it :
  drop_last (make_edges s it) = make_edges s (take (length it - 1) it).
Proof.
  unfold drop_last. rewrite take_make_edges. unfold make_edges.
  by rewrite length_imap.
Qed.

Lemma make_edges_app s (l1 l2 : list A) :
  make_edges s (l1 ++ l2) = make_edges s l1 ++ make_edges (s + len l1) l2.
Proof.
  unfold make_edges, len. rewrite imap_app. f_equal.
  apply imap_ext. intros i x _. cbn. f_equal. lia.
Qed.

Lemma make_edges_nil s : make_edges s ([] : list A) = [].
Proof. done. Qed.

Lemma cursors_make_connection (es : list (Edge A)) expected s tc :
  let c := make_connection es expected s tc in
  start_cursor (page_info c) = cursor <$> first_item (edges c)
  /\ end_cursor (page_info c) = cursor <$> last_item (edges c).
Proof. unfold make_connection. by case_bool_decide. Qed.

Lemma total_count_make_connection (es : list (Edge A)) expected s tc :
  total_count (make_connection es expected s tc) = tc.
Proof. unfold make_connection. by case_bool_decide. Qed.

(** The edges of a page, whichever way the last test of [from_nodes]
    goes, are the edges of a prefix of the fetched items. *)
Lemma edges_make_connection_take s it expected tc :
  exists m : nat,
    edges (make_connection (make_edges s it) expected s tc)
    = make_edges s (take m it)
    /\ (m <= length it)%nat.
Proof.
  rewrite edges_make_connection. case_bool_decide.
  - exists (length it - 1)%nat. split; [apply drop_last_make_edges|lia].
  - exists (length it). split; [by rewrite take_ge|lia].
Qed.

End Edges.

Section Shape.
Context {A : Type}.
Implicit Types (nodes : collection A) (c : Connection A) (it : list A).

(** A page is a run of consecutive items, under consecutive cursors. *)
Lemma page_shape nodes tc before after first last c :
  valid_cursor before -> valid_cursor after -> valid_count nodes tc ->
  from_nodes nodes tc before after first last = Ok c ->
  exists (s : Z) (m : nat),
    0 <= s
    /\ edges c = make_edges s (take m (drop (Z.to_nat s) (items nodes)))
    /\ has_previous_page (page_info c) = bool_decide (s > 0).
Proof.
  intros Hb Ha Htc
    (s0 & e1 & e2 & nodes' & tc' & s & e3 & e4 & expected & it
     & H1 & H2 & H3 & H4 & H5 & H6 & ->)%from_nodes_Ok.
  destruct (window_valid _ _ _ _ _ _ _ _ _ _ _ _ _ _ _ Hb Ha Htc H1 H2 H3 H4 H5)
    as (Hs & Hitems & Hwin).
  destruct (edges_make_connection_take s it expected tc') as (m & -> & Hm).
  destruct (page_info_make_connection (make_edges s it) expected s tc')
    as [_ ->].
  destruct Hwin as [(e & -> & He & -> & Hexp)|(-> & -> & Hs' & Hn)].
  - apply fetch_to_Ok in H6 as ->; [|lia..].
    rewrite take_take, Hitems. by eexists s, _.
  - apply fetch_from_Ok in H6 as ->; [|done].
    rewrite Hitems. by eexists s, _.
Qed.

Lemma after_start_valid_Ok (after : option string) :
  valid_cursor after -> exists s0, after_start after 0 = Ok s0.
Proof.
  unfold after_start. intros [->|(k & _ & ->)]; [by eauto|].
  case_match; by eauto.
Qed.

Lemma before_end_valid_Ok (before : option string) (e0 : option Z) :
  valid_cursor before -> exists e1, before_end before e0 = Ok e1.
Proof.
  unfold before_end. intros [->|(k & _ & ->)]; [by eauto|].
  case_match; by eauto.
Qed.

Lemma first_window_valid_Ok (first : option Z) (s e1 : Z) :
  valid_limit first -> exists e2, first_window first s (Some e1) = Ok e2.
Proof.
  unfold valid_limit, first_window. destruct first as [f|]; [|by eauto].
  intros Hf. destruct (Z.ltb_spec f 0); [lia|].
  destruct (Z.gtb_spec f max_results); [lia|]. by eauto.
Qed.

Lemma last_window_valid_Ok (last : option Z) nodes kc (s e2 : Z) :
  valid_limit last -> exists r, last_window last nodes kc s (Some e2) = Ok r.
Proof.
  unfold valid_limit, last_window. destruct last as [l|]; [|by eauto].
  intros Hl. destruct (Z.ltb_spec l 0); [lia|].
  destruct (Z.gtb_spec l max_results); [lia|].
  case_bool_decide; [destruct kc; by eauto|].
  rewrite bool_decide_true by done. by eauto.
Qed.

Lemma last_window_raises (last : option Z) nodes kc (s e2 : Z) (e : exn) :
  last_window last nodes kc s (Some e2) = Raise e -> exists msg, e = ValueError msg.
Proof.
  unfold last_window. destruct last as [l|]; [|done].
  destruct (Z.ltb_spec l 0); [intros [= <-]; by eauto|].
  destruct (Z.gtb_spec l max_results); [intros [= <-]; by eauto|].
  case_bool_decide; [by destruct kc|]. by rewrite bool_decide_true by done.
Qed.

Lemma fetch_raises nodes (s : Z) (e4 : option Z) (e : exn) :
  fetch nodes s e4 = Raise e -> exists msg, e = ValueError msg.
Proof.
  unfold fetch, islice. destruct (has_getitem nodes); [done|].
  repeat case_match; intros [= <-]; by eauto.
Qed.

End Shape.

Section Reach.
Context {A : Type}.
Implicit Types (nodes : collection A) (c : Connection A).

Lemma after_start_reach (after : option string) (s0 : Z) :
  cursor_in_reach after -> after_start after 0 = Ok s0 ->
  s0 + max_results + 1 <= sys_maxsize.
Proof.
  intros Hr. unfold after_start. pose proof sys_maxsize_large.
  destruct (truthy after); [|intros [= <-]; unfold max_results; lia].
  destruct (cursor_offset (default "" after)) as [k|] eqn:Hk; [|done].
  cbn. intros [= <-]. specialize (Hr k Hk). unfold in_reach in Hr. lia.
Qed.

Lemma before_end_reach (before : option string) (e0 : Z) (e1 : option Z) :
  cursor_in_reach before -> before_end before (Some e0) = Ok e1 ->
  e1 = Some e0 \/ exists k, e1 = Some k /\ in_reach k.
Proof.
  intros Hr. unfold before_end.
  destruct (truthy before); [|intros [= <-]; by left].
  destruct (cursor_offset (default "" before)) as [k|] eqn:Hk; [|done].
  cbn. intros [= <-]. right. exists k. split; [done|]. by apply Hr.
Qed.

Lemma last_window_getitem (last : option Z) nodes kc (s0 : Z) (e2 : option Z)
    nodes' tc' (s : Z) (e3 : option Z) :
  last_window last nodes kc s0 e2 = Ok (nodes', tc', s, e3) ->
  has_getitem nodes = true -> has_getitem nodes' = true.
Proof.
  unfold last_window. intros Hw Hget.
  destruct last as [l|]; [|by injection Hw as <- _ _ _].
  destruct (l <? 0); [done|]. destruct (l >? max_results); [done|].
  case_bool_decide.
  - destruct kc; by injection Hw as <- _ _ _.
  - destruct (bool_decide (e2 <> None)); [|done].
    cbn in Hw. by injection Hw as <- _ _ _.
Qed.

(** With cursors and a count in reach, an iterator is read with bounds
    that [islice] takes. *)
Lemma window_in_reach nodes tc before after first last
    s0 e1 e2 nodes' tc' s e3 e4 expected :
  valid_cursor before -> valid_cursor after -> valid_count nodes tc ->
  has_getitem nodes = true
  \/ (cursor_in_reach before /\ cursor_in_reach after /\ count_in_reach nodes tc) ->
  after_start after 0 = Ok s0 ->
  before_end before (Some (default sys_maxsize (known_count nodes tc))) = Ok e1 ->
  first_window first s0 e1 = Ok e2 ->
  last_window last nodes (known_count nodes tc) s0 e2 = Ok (nodes', tc', s, e3) ->
  clamp_window s e3 = (e4, expected) ->
  has_getitem nodes' = true
  \/ (s <= sys_maxsize /\ forall e, e4 = Some e -> e + 1 <= sys_maxsize).
Proof.
  intros Hb Ha Htc [Hget|(Hrb & Hra & Hrc)] H1 H2 H3 H4 H5.
  { left. by eapply last_window_getitem. }
  pose proof sys_maxsize_large as HM.
  pose proof (len_nonneg (items nodes)) as Hlen.
  pose proof (after_start_reach _ _ Hra H1) as Hs0.
  pose proof (after_start_valid _ _ Ha H1) as Hs0'.
  assert (forall n, known_count nodes tc = Some n -> in_reach n /\ 0 <= n) as Hkc.
  { intros n Hn. split; [by apply Hrc|].
    pose proof (known_count_covers nodes tc Htc) as Hc. rewrite Hn in Hc. lia. }
  assert (exists e1', e1 = Some e1' /\ 0 <= e1'
            /\ (in_reach e1'
                \/ (e1' = sys_maxsize /\ known_count nodes tc = None)))
    as (e1' & -> & He1 & He1r).
  { destruct (before_end_valid _ _ _ Hb
                (ltac:(destruct (known_count nodes tc) as [n|]; cbn;
                       [by apply Hkc|lia])
                 : 0 <= default sys_maxsize (known_count nodes tc)) H2)
      as (e & -> & He).
    exists e. split; [done|]. split; [done|].
    destruct (before_end_reach _ _ _ Hrb H2) as [[= ->]|(k & [= ->] & Hk)];
      [|by left].
    destruct (known_count nodes tc) as [n|]; cbn; [left; by apply Hkc|by right]. }
  apply first_window_Ok in H3.
  assert (exists e2', e2 = Some e2' /\ 0 <= e2'
            /\ (e2' + 1 <= sys_maxsize
                \/ (e2' = sys_maxsize /\ known_count nodes tc = None)))
    as (e2' & -> & He2 & He2r).
  { unfold in_reach, max_results in *.
    destruct first as [f|]; [destruct H3 as [Hf ->]|subst e2];
      eexists; (split; [done|]); (split; [lia|]).
    - destruct He1r as [?|[-> ?]]; [left; lia|].
      destruct (decide (s0 + f < sys_maxsize)); [left; lia|right; split; [lia|done]].
    - destruct He1r as [?|[-> ?]]; [left; lia|by right]. }
  apply last_window_Ok in H4. unfold clamp_window, in_reach, max_results in *.
  destruct last as [l|].
  - destruct H4 as [Hl H4]. destruct (decide (e2' = sys_maxsize)) as [HeM|HeM].
    + rewrite bool_decide_true in H4 by done. cbn zeta in H4.
      destruct H4 as (-> & -> & -> & ->).
      destruct (known_count nodes tc) as [n|] eqn:Hn; [|by left].
      right. destruct (Hkc n eq_refl) as [Hnr Hn0].
      change (default (len (items nodes)) (Some n)) with n in *.
      rewrite bool_decide_false in H5 by done.
      split; [lia|]. intros e ->.
      destruct (Z.gtb_spec (Z.abs (s0 `max` (n - l))) 100); [|done].
      injection H5 as <- _. lia.
    + rewrite bool_decide_false in H4 by done.
      destruct H4 as (-> & -> & -> & ->). right.
      rewrite bool_decide_false in H5 by congruence.
      destruct He2r as [?|[? ?]]; [|done].
      split; [lia|]. intros e ->.
      destruct (Z.gtb_spec (e2' - s0 `max` (e2' - l)) 100);
        injection H5 as <- _; lia.
  - destruct H4 as (-> & -> & -> & ->). right. split; [lia|]. intros e ->.
    destruct (decide (e2' = sys_maxsize)) as [HeM|HeM].
    + rewrite bool_decide_true in H5 by congruence.
      destruct (Z.gtb_spec (s0 + 100 - s0) 100); injection H5 as <- _; lia.
    + rewrite bool_decide_false in H5 by congruence.
      destruct He2r as [?|[? ?]]; [|done].
      destruct (Z.gtb_spec (e2' - s0) 100); injection H5 as <- _; lia.
Qed.

End Reach.

(** X1: with valid cursors, limits within the bounds and a valid count,
    [from_nodes] returns a page and raises nothing: on a collection that
    is indexable, and on any other kind of collection when the offsets of
    the cursors and the count are in reach of an iterator (at most
    [sys.maxsize - 102]). *)
Theorem from_nodes_returns {A : Type} (nodes : collection A) (tc : option Z)
    (before after : option string) (first last : option Z) :
  valid_cursor before -> valid_cursor after ->
  valid_limit first -> valid_limit last -> valid_count nodes tc ->
  has_getitem nodes = true
  \/ (cursor_in_reach before /\ cursor_in_reach after /\ count_in_reach nodes tc) ->
  exists c, from_nodes nodes tc before after first last = Ok c.
Proof.
  intros Hb Ha Hf Hl Htc Hreach. pose proof sys_maxsize_pos as HM.
  pose proof (len_nonneg (items nodes)) as Hn.
  destruct (after_start_valid_Ok after Ha) as [s0 H1].
  destruct (before_end_valid_Ok before
              (Some (default sys_maxsize (known_count nodes tc))) Hb) as [e1 H2].
  destruct (before_end_Some _ _ _ H2) as [e1' ->].
  destruct (first_window_valid_Ok first s0 e1' Hf) as [e2 H3].
  pose proof (first_window_Ok _ _ _ _ H3) as He2.
  assert (exists e2', e2 = Some e2') as [e2' ->]
    by (destruct first; [destruct He2 as [_ ->]|subst]; by eauto).
  destruct (last_window_valid_Ok last nodes (known_count nodes tc) s0 e2' Hl)
    as [[[[nodes' tc'] s] e3] H4].
  destruct (clamp_window s e3) as [e4 expected] eqn:H5.
  destruct (window_valid _ _ _ _ _ _ _ _ _ _ _ _ _ _ _ Hb Ha Htc H1 H2 H3 H4 H5)
    as (Hs & _ & Hwin).
  pose proof (window_in_reach _ _ _ _ _ _ _ _ _ _ _ _ _ _ _
                Hb Ha Htc Hreach H1 H2 H3 H4 H5) as Hfit.
  assert (exists it, fetch nodes' s e4 = Ok it) as [it H6].
  { destruct Hwin as [(e & -> & He & _)|(-> & _)].
    - rewrite fetch_to; [by eauto|lia|lia|].
      destruct Hfit as [?|[? Hfit]]; [by left|right].
      split; [done|by apply Hfit].
    - rewrite fetch_from; [by eauto|done|].
      destruct Hfit as [?|[? _]]; [by left|by right]. }
  eexists. apply from_nodes_Ok.
  eexists s0, _, _, nodes', tc', s, e3, e4, expected, it.
  repeat split; eassumption.
Qed.

Lemma from_nodes_returns_witness :
  exists c, from_nodes (mkCollection ["a"; "b"; "c"] false false false) None
              (Some (cursor_of 2)) (Some (cursor_of 0)) (Some 5) (Some 1) = Ok c.
Proof.
  apply (from_nodes_returns (mkCollection ["a"; "b"; "c"] false false false)).
  - right. exists 2. split; [lia|reflexivity].
  - right. exists 0. split; [lia|reflexivity].
  - change (0 <= 5 <= 100). lia.
  - change (0 <= 1 <= 100). lia.
  - exact I.
  - right. split; [|split].
    + intros k Hk. vm_compute in Hk. injection Hk as <-. vm_compute. discriminate.
    + intros k Hk. vm_compute in Hk. injection Hk as <-. vm_compute. discriminate.
    + intros n Hn. discriminate Hn.
Defined.

(** A generator that is asked for the page behind a cursor out of reach:
    the cursor is valid, and the call fails. *)
Example from_nodes_cursor_out_of_reach :
  valid_cursor (Some (cursor_of sys_maxsize))
  /\ from_nodes (mkCollection ["a"; "b"; "c"] false false false) None
       None (Some (cursor_of sys_maxsize)) None None
     = Raise (ValueError "Stop argument for islice() must be None or an integer: 0 <= x <= sys.maxsize.").
Proof.
  split; [right; exists sys_maxsize; split; [done|reflexivity]|].
  vm_compute. reflexivity.
Qed.

(** X2: on a page returned for valid cursors and a valid count, the edge
    at position [i] carries the cursor of the offset [s + i] and the item
    of the collection at that offset, for one start [s]: a cursor tells the
    place of the item in the collection, not in the page.  There is a
    previous page exactly when [s > 0]. *)
Theorem from_nodes_edge_offsets {A : Type} (nodes : collection A)
    (tc : option Z) (before after : option string) (first last : option Z)
    (c : Connection A) :
  valid_cursor before -> valid_cursor after -> valid_count nodes tc ->
  from_nodes nodes tc before after first last = Ok c ->
  exists s,
    0 <= s
    /\ has_previous_page (page_info c) = bool_decide (s > 0)
    /\ forall (i : nat) (e : Edge A),
         edges c !! i = Some e ->
         cursor e = cursor_of (s + Z.of_nat i)
         /\ cursor_offset (cursor e) = Ok (s + Z.of_nat i)
         /\ items nodes !! Z.to_nat (s + Z.of_nat i) = Some (node e).
Proof.
  intros Hb Ha Htc Hc.
  destruct (page_shape _ _ _ _ _ _ _ Hb Ha Htc Hc) as (s & m & Hs & -> & Hprev).
  exists s. split; [done|]. split; [done|]. intros i e.
  rewrite lookup_make_edges.
  destruct (take m (drop (Z.to_nat s) (items nodes)) !! i) as [v|] eqn:Hv;
    [|done].
  intros [= <-]. cbn [cursor node Edge_from_node].
  split; [done|]. split; [apply cursor_offset_cursor_of|].
  apply lookup_take_Some in Hv as [Hv _]. rewrite lookup_drop in Hv.
  by replace (Z.to_nat (s + Z.of_nat i)) with (Z.to_nat s + i)%nat by lia.
Qed.

Lemma from_nodes_edge_offsets_witness :
  exists s,
    0 <= s
    /\ has_previous_page
         (page_info (mkConnection
            (mkPageInfo true true (Some (cursor_of 2)) (Some (cursor_of 3)))
            [mkEdge (cursor_of 2) "c"; mkEdge (cursor_of 3) "d"] (Some 5)))
       = bool_decide (s > 0)
    /\ forall (i : nat) (e : Edge string),
         [mkEdge (cursor_of 2) "c"; mkEdge (cursor_of 3) "d"] !! i = Some e ->
         cursor e = cursor_of (s + Z.of_nat i)
         /\ cursor_offset (cursor e) = Ok (s + Z.of_nat i)
         /\ ["a"; "b"; "c"; "d"; "e"] !! Z.to_nat (s + Z.of_nat i) = Some (node e).
Proof.
  apply (from_nodes_edge_offsets
           (mkCollection ["a"; "b"; "c"; "d"; "e"] false true true)
           None None (Some (cursor_of 1)) (Some 2) None).
  - left. reflexivity.
  - right. exists 1. split; [lia|reflexivity].
  - exact I.
  - reflexivity.
Defined.

(** X3: the count that a page reports.  A supplied [total_count] is passed
    on unchanged; without one, a sized collection reports its number of
    items, and any count that is reported is the number of items. *)
Theorem from_nodes_total_count {A : Type} (nodes : collection A)
    (tc : option Z) (before after : option string) (first last : option Z)
    (c : Connection A) :
  from_nodes nodes tc before after first last = Ok c ->
  match tc with
  | Some n => total_count c = Some n
  | None =>
      (sized nodes -> total_count c = Some (len (items nodes)))
      /\ (forall n, total_count c = Some n -> n = len (items nodes))
  end.
Proof.
  intros (s0 & e1 & e2 & nodes' & tc' & s & e3 & e4 & expected & it
          & H1 & H2 & H3 & H4 & H5 & H6 & ->)%from_nodes_Ok.
  destruct (before_end_Some _ _ _ H2) as [e1' ->].
  pose proof (first_window_Ok _ _ _ _ H3) as He2.
  assert (exists e2', e2 = Some e2') as [e2' ->]
    by (destruct first; [destruct He2 as [_ ->]|subst]; by eauto).
  apply last_window_Ok in H4. rewrite total_count_make_connection.
  assert (tc' = known_count nodes tc
          \/ tc' = Some (default (len (items nodes)) (known_count nodes tc)))
    as Htc'.
  { destruct last as [l|]; [|left; by destruct H4 as (_ & -> & _)].
    destruct H4 as [_ H4]. case_bool_decide.
    - right. by destruct H4 as (_ & -> & _).
    - left. by destruct H4 as (_ & -> & _). }
  destruct tc as [n|]; [by destruct Htc' as [->| ->]|].
  split.
  - intros Hsized. rewrite known_count_sized in Htc' by done.
    by destruct Htc' as [->| ->].
  - intros n. unfold known_count in Htc'.
    destruct Htc' as [->| ->]; repeat case_match; by intros [= <-].
Qed.

Lemma from_nodes_total_count_witness :
  total_count (mkConnection (mkPageInfo true false None None)
                 ([] : list (Edge string)) (Some 7)) = Some 7.
Proof.
  apply (from_nodes_total_count (mkCollection ["a"] false false false)
           (Some 7) None None (Some 0) None).
  reflexivity.
Defined.

(** X4: what [from_nodes] raises.  Every failure is a [ValueError], but
    for the [AssertionError] of a cursor of another namespace: the two
    assertions on [end] (lines 574 and 599) never fail, and no other
    exception is raised. *)
Theorem from_nodes_raises {A : Type} (nodes : collection A) (tc : option Z)
    (before after : option string) (first last : option Z) (e : exn) :
  from_nodes nodes tc before after first last = Raise e ->
  is_ValueError e = true
  \/ (e = AssertionError /\ (foreign_cursor after \/ foreign_cursor before)).
Proof.
  unfold from_nodes.
  destruct (after_start after 0) as [s0|e'] eqn:H1; last first.
  { intros [= <-]. apply after_start_raises in H1 as [?|[? ?]]; auto. }
  cbn [mbind outcome_bind].
  destruct (before_end before _) as [e1|e'] eqn:H2; last first.
  { intros [= <-]. apply before_end_raises in H2 as [?|[? ?]]; auto. }
  destruct (before_end_Some _ _ _ H2) as [e1' ->]. cbn [mbind outcome_bind].
  destruct (first_window first s0 (Some e1')) as [e2|e'] eqn:H3; last first.
  { intros [= <-]. apply first_window_raises in H3 as [msg ->]. by left. }
  pose proof (first_window_Ok _ _ _ _ H3) as He2.
  assert (exists e2', e2 = Some e2') as [e2' ->]
    by (destruct first; [destruct He2 as [_ ->]|subst]; by eauto).
  cbn [mbind outcome_bind].
  destruct (last_window last nodes _ s0 (Some e2'))
    as [[[[nodes' tc'] s] e3]|e'] eqn:H4; last first.
  { intros [= <-]. apply last_window_raises in H4 as [msg ->]. by left. }
  cbn [mbind outcome_bind]. destruct (clamp_window s e3) as [e4 expected].
  destruct (fetch nodes' s e4) as [it|e'] eqn:H6; [done|].
  intros [= <-]. apply fetch_raises in H6 as [msg ->]. by left.
Qed.

Lemma from_nodes_raises_witness :
  is_ValueError (ValueError "Argument 'last' must be a non-negative integer.")
  = true
  \/ (ValueError "Argument 'last' must be a non-negative integer."
      = AssertionError
      /\ (foreign_cursor None \/ foreign_cursor None)).
Proof.
  apply (from_nodes_raises (mkCollection ["a"] false true true) None None None
           None (Some (-1))).
  reflexivity.
Defined.

(** ** Forward and backward pages *)

Section Paging.
Context {A : Type}.
Implicit Types (nodes : collection A) (c : Connection A) (it : list A).

Lemma take_same_cap (p q : nat) (l : list A) :
  (p `min` length l = q `min` length l)%nat -> take p l = take q l.
Proof.
  intros Hpq. apply list_eq. intros i.
  destruct (decide (i < length l)%nat) as [Hi|Hi].
  - destruct (decide (i < p)%nat), (decide (i < q)%nat); try lia.
    + by rewrite !lookup_take_lt.
    + by rewrite !lookup_take_ge by lia.
  - rewrite !(proj2 (lookup_ge_None _ _)); [done|rewrite length_take; lia..].
Qed.

(** The edges of the page whose window is [s .. e], when the window stays
    within the bound: the items from [s] up to [e]. *)
Lemma edges_of_window nodes (s e : Z) tc :
  0 <= s <= e -> e <= s + max_results -> e <> sys_maxsize ->
  edges (make_connection (make_edges s (fetched nodes s e))
           (clamped_end s e - s) s tc)
  = make_edges s (take (Z.to_nat (e - s)) (drop (Z.to_nat s) (items nodes)))
  /\ has_next_page (page_info (make_connection (make_edges s (fetched nodes s e))
                                 (clamped_end s e - s) s tc))
     = bool_decide (e < len (items nodes))
  /\ has_previous_page (page_info (make_connection (make_edges s (fetched nodes s e))
                                     (clamped_end s e - s) s tc))
     = bool_decide (s > 0).
Proof.
  intros Hse He HeM.
  assert (clamped_end s e = e) as Hce.
  { unfold clamped_end. rewrite bool_decide_false by done. lia. }
  destruct (page_info_make_connection (make_edges s (fetched nodes s e))
              (clamped_end s e - s) s tc) as [-> ->].
  rewrite edges_make_connection, len_make_edges, len_fetched by lia.
  rewrite Hce. pose proof (len_nonneg (items nodes)) as Hn.
  split; [|split; [|done]].
  - case_bool_decide as Hover.
    + rewrite drop_last_make_edges. f_equal. unfold fetched. rewrite Hce.
      rewrite take_take. apply take_same_cap.
      rewrite length_take, length_drop. unfold len in *. lia.
    + f_equal. unfold fetched. rewrite Hce. apply take_same_cap.
      rewrite length_drop. unfold len in *. lia.
  - repeat case_bool_decide; lia.
Qed.

(** The page that starts at [s] and asks for [first] items, or for
    [max_results] when [first] is absent. *)
Lemma forward_page nodes tc after first s :
  small nodes -> valid_count nodes tc -> valid_limit first ->
  after_start after 0 = Ok s -> 0 <= s <= len (items nodes) ->
  exists c,
    from_nodes nodes tc None after first None = Ok c
    /\ edges c = make_edges s (take (Z.to_nat (page_size first))
                                 (drop (Z.to_nat s) (items nodes)))
    /\ has_next_page (page_info c)
       = bool_decide (len (items nodes) > s + page_size first)
    /\ has_previous_page (page_info c) = bool_decide (s > 0)
    /\ end_cursor (page_info c) = cursor <$> last_item (edges c).
Proof.
  intros Hsmall Htc Hf H1 Hs. pose proof (known_count_covers nodes tc Htc) as Hkc.
  unfold small, max_results in Hsmall.
  set (e0 := default sys_maxsize (known_count nodes tc)).
  assert (len (items nodes) <= e0) as He0.
  { unfold e0. destruct (known_count nodes tc); cbn; lia. }
  destruct (first_window_valid_Ok first s e0 Hf) as [e2 H3].
  pose proof (first_window_Ok _ _ _ _ H3) as He2.
  set (F := page_size first).
  assert (0 <= F <= 100) as HF.
  { unfold F, page_size, valid_limit, max_results in *. destruct first; cbn; lia. }
  (* the end of the window, after the clamp *)
  set (e := Z.min e0 (s + F)).
  assert (exists e2', e2 = Some e2' /\ 0 <= e2' /\ clamped_end s e2' = e)
    as (e2' & -> & He2' & Hce).
  { unfold clamped_end, e, F, page_size, max_results in *.
    destruct first as [f|]; [destruct He2 as [? ->]|subst e2];
      eexists; (split; [done|]); cbn; case_bool_decide; lia. }
  eexists. split.
  { eapply (from_nodes_window _ _ _ _ _ _ _ _ _ _ _ s e2');
      [exact H1|reflexivity|exact H3|reflexivity|lia|lia|].
    right. unfold max_results. lia. }
  destruct (cursors_make_connection (make_edges s (fetched nodes s e2'))
              (clamped_end s e2' - s) s (known_count nodes tc)) as [_ Hend].
  cbn zeta in Hend. rewrite Hend. clear Hend.
  destruct (page_info_make_connection (make_edges s (fetched nodes s e2'))
              (clamped_end s e2' - s) s (known_count nodes tc)) as [-> ->].
  rewrite edges_make_connection, len_make_edges, len_fetched by lia.
  pose proof (len_nonneg (items nodes)) as Hn. rewrite Hce.
  split; [|split; [|done]].
  - case_bool_decide as Hover.
    + rewrite drop_last_make_edges. f_equal. unfold fetched. rewrite Hce.
      rewrite take_take. apply take_same_cap.
      rewrite length_take, length_drop. unfold len in *. lia.
    + f_equal. unfold fetched. rewrite Hce. apply take_same_cap.
      rewrite length_drop. unfold len in *. lia.
  - repeat case_bool_decide; lia.
Qed.

End Paging.

(** X5: forward pagination.  With [after] absent or a cursor, so that
    the page starts at the offset [s] of an item or at the end, and with
    [first] absent or within the bounds, the page holds the next
    [first] items (the next 100 when [first] is absent), as far as there
    are; there is a next page exactly when items are left behind it, and a
    previous page exactly when [s > 0].  This holds for every kind of
    collection that fits in memory. *)
Theorem from_nodes_forward {A : Type} (nodes : collection A) (tc : option Z)
    (after : option string) (first : option Z) (s : Z) :
  small nodes -> valid_count nodes tc -> valid_limit first ->
  after_start after 0 = Ok s -> 0 <= s <= len (items nodes) ->
  exists c,
    from_nodes nodes tc None after first None = Ok c
    /\ node <$> edges c
       = take (Z.to_nat (page_size first)) (drop (Z.to_nat s) (items nodes))
    /\ has_next_page (page_info c)
       = bool_decide (len (items nodes) > s + page_size first)
    /\ has_previous_page (page_info c) = bool_decide (s > 0).
Proof.
  intros Hsmall Htc Hf H1 Hs.
  destruct (forward_page nodes tc after first s Hsmall Htc Hf H1 Hs)
    as (c & Hc & Hedges & Hnext & Hprev & _).
  exists c. rewrite Hedges, node_make_edges. done.
Qed.

Lemma from_nodes_forward_witness :
  exists c,
    from_nodes (mkCollection ["a"; "b"; "c"; "d"; "e"] false false false) None
      None (Some (cursor_of 0)) (Some 3) None = Ok c
    /\ node <$> edges c
       = take (Z.to_nat (page_size (Some 3)))
           (drop (Z.to_nat 1) ["a"; "b"; "c"; "d"; "e"])
    /\ has_next_page (page_info c) = bool_decide (5 > 1 + page_size (Some 3))
    /\ has_previous_page (page_info c) = bool_decide (1 > 0).
Proof.
  apply (from_nodes_forward
           (mkCollection ["a"; "b"; "c"; "d"; "e"] false false false)
           None (Some (cursor_of 0)) (Some 3) 1).
  - unfold small, sys_maxsize. change (5 + 100 < 2 ^ 63 - 1). lia.
  - exact I.
  - change (0 <= 3 <= 100). lia.
  - reflexivity.
  - change (0 <= 1 <= 5). lia.
Defined.

(** X6: backward pagination.  With [last = l] and a window that ends at
    the offset [e] of an item or at the end of the collection ([before] a
    cursor of offset [e], or [before] absent on a collection whose count
    is known), the page holds the [l] items before [e], as far as there
    are; there is a previous page exactly when [e > l], and a next page
    exactly when [e] is not the end of the collection. *)
Theorem from_nodes_backward {A : Type} (nodes : collection A) (tc : option Z)
    (before : option string) (l e : Z) :
  small nodes -> 0 <= l <= max_results ->
  before_end before (Some (default sys_maxsize (known_count nodes tc)))
  = Ok (Some e) ->
  0 <= e <= len (items nodes) ->
  exists c,
    from_nodes nodes tc before None None (Some l) = Ok c
    /\ node <$> edges c
       = take (Z.to_nat (e - Z.max 0 (e - l)))
           (drop (Z.to_nat (Z.max 0 (e - l))) (items nodes))
    /\ has_previous_page (page_info c) = bool_decide (e > l)
    /\ has_next_page (page_info c) = bool_decide (e < len (items nodes)).
Proof.
  intros Hsmall Hl H2 He. unfold small, max_results in *.
  assert (last_window (Some l) nodes (known_count nodes tc) 0 (Some e)
          = Ok (nodes, known_count nodes tc, Z.max 0 (e - l), Some e)) as H4.
  { unfold last_window, max_results.
    destruct (Z.ltb_spec l 0); [lia|]. destruct (Z.gtb_spec l 100); [lia|].
    rewrite bool_decide_false by (intros [=]; lia). done. }
  eexists. split.
  { eapply (from_nodes_window _ _ _ _ _ _ _ _ _ _ _ (Z.max 0 (e - l)) e);
      [reflexivity|exact H2|reflexivity|exact H4|lia|lia|].
    right. unfold max_results. lia. }
  destruct (edges_of_window nodes (Z.max 0 (e - l)) e (known_count nodes tc))
    as (-> & -> & ->); [unfold max_results; lia..|].
  rewrite node_make_edges. split; [done|]. split; [|done].
  repeat case_bool_decide; lia.
Qed.

Lemma from_nodes_backward_witness :
  exists c,
    from_nodes (mkCollection ["a"; "b"; "c"; "d"; "e"] false false false) None
      (Some (cursor_of 4)) None None (Some 2) = Ok c
    /\ node <$> edges c
       = take (Z.to_nat (4 - Z.max 0 (4 - 2)))
           (drop (Z.to_nat (Z.max 0 (4 - 2))) ["a"; "b"; "c"; "d"; "e"])
    /\ has_previous_page (page_info c) = bool_decide (4 > 2)
    /\ has_next_page (page_info c) = bool_decide (4 < 5).
Proof.
  apply (from_nodes_backward
           (mkCollection ["a"; "b"; "c"; "d"; "e"] false false false)
           None (Some (cursor_of 4)) 2 4).
  - unfold small, sys_maxsize. change (5 + 100 < 2 ^ 63 - 1). lia.
  - change (0 <= 2 <= 100). lia.
  - reflexivity.
  - change (0 <= 4 <= 5). lia.
Defined.

Section Materialised.
Context {A : Type}.
Implicit Types (nodes : collection A) (c : Connection A).

Lemma known_count_unsized nodes : ~ sized nodes -> known_count nodes None = None.
Proof.
  unfold known_count, sized. intros Hns.
  destruct (has_count nodes), (is_sized nodes); try done;
    exfalso; apply Hns; by (left + right).
Qed.

(** The stages of a call with [last] alone on a collection whose count is
    not known: the collection is read into a list. *)
Lemma last_unsized_stages nodes l :
  ~ sized nodes -> 0 <= l <= max_results ->
  last_window (Some l) nodes (known_count nodes None) 0 (Some sys_maxsize)
  = Ok (py_list nodes, Some (len (items nodes)),
        Z.max 0 (len (items nodes) - l), None).
Proof.
  intros Hns Hl. rewrite known_count_unsized by done.
  unfold last_window, max_results in *.
  destruct (Z.ltb_spec l 0); [lia|]. destruct (Z.gtb_spec l 100); [lia|].
  by rewrite bool_decide_true by done.
Qed.

End Materialised.

(** X7: [last = l] alone on a collection whose count is not known (a
    generator).  The collection is read into a list and its length is
    reported as [total_count]; there is a previous page exactly when it
    has more than [l] items.  The page holds the last [l] items (all of
    them when there are fewer) and reports no next page, unless the number
    of items on the page is one more than the offset [st] of the first of
    them while [st <= 100] (line 606 then expects [st] items). *)
Theorem from_nodes_last_unsized {A : Type} (nodes : collection A) (l : Z) :
  ~ sized nodes -> 0 <= l <= max_results ->
  let n := len (items nodes) in
  let st := Z.max 0 (n - l) in
  exists c,
    from_nodes nodes None None None None (Some l) = Ok c
    /\ total_count c = Some n
    /\ has_previous_page (page_info c) = bool_decide (n > l)
    /\ (st > max_results \/ n - st <> st + 1 ->
        node <$> edges c = drop (Z.to_nat st) (items nodes)
        /\ has_next_page (page_info c) = false).
Proof.
  intros Hns Hl n st. pose proof (len_nonneg (items nodes)) as Hn. fold n in Hn.
  pose proof (last_unsized_stages nodes l Hns Hl) as H4. fold n st in H4.
  assert (0 <= st) as Hst by lia.
  destruct (clamp_window st None) as [e4 expected] eqn:H5.
  assert (fetch (py_list nodes) st e4 = Ok (drop (Z.to_nat st) (items nodes))
          /\ (expected = st /\ st <= max_results
              \/ expected = max_results /\ st > max_results)) as [H6 Hexp].
  { unfold clamp_window, max_results in *. rewrite bool_decide_false in H5 by done.
    rewrite Z.abs_eq in H5 by done.
    destruct (Z.gtb_spec st 100); injection H5 as <- <-.
    - rewrite fetch_to; [|lia|lia|by left]. split; [|right; lia]. f_equal.
      apply take_ge. rewrite length_drop. unfold n, len in *. cbn. lia.
    - rewrite fetch_from; [|done|by left]. split; [done|left; lia]. }
  eexists. split.
  { apply from_nodes_Ok.
    eexists 0, (Some sys_maxsize), (Some sys_maxsize), _, _, st, None, e4,
      expected, _.
    rewrite known_count_unsized by done.
    rewrite known_count_unsized in H4 by done.
    repeat split; done. }
  rewrite total_count_make_connection.
  destruct (page_info_make_connection
              (make_edges st (drop (Z.to_nat st) (items nodes))) expected st
              (Some n)) as [-> ->].
  rewrite edges_make_connection, len_make_edges, len_drop by done.
  fold n. unfold max_results in *.
  split; [done|]. split; [repeat case_bool_decide; lia|].
  intros Hslip. rewrite bool_decide_false by lia.
  by rewrite node_make_edges.
Qed.

Lemma from_nodes_last_unsized_witness :
  exists c,
    from_nodes (mkCollection ["a"; "b"; "c"; "d"] false false false)
      None None None None (Some 3) = Ok c
    /\ total_count c = Some 4
    /\ has_previous_page (page_info c) = bool_decide (4 > 3)
    /\ (1 > max_results \/ 4 - 1 <> 1 + 1 ->
        node <$> edges c = drop (Z.to_nat 1) ["a"; "b"; "c"; "d"]
        /\ has_next_page (page_info c) = false).
Proof.
  apply (from_nodes_last_unsized
           (mkCollection ["a"; "b"; "c"; "d"] false false false) 3).
  - intros [H|H]; discriminate H.
  - change (0 <= 3 <= 100). lia.
Defined.

Section Compose.
Context {A : Type}.
Implicit Types (nodes : collection A) (c : Connection A).

Lemma last_make_edges s (it : list A) :
  last_item (make_edges s it)
  = (fun v => Edge_from_node v (s + len it - 1)) <$> last it.
Proof.
  unfold last_item. rewrite !last_lookup, lookup_make_edges.
  unfold make_edges. rewrite length_imap.
  destruct (it !! pred (length it)) as [v|] eqn:Hv; [|done].
  apply lookup_lt_Some in Hv. cbn. do 2 f_equal. unfold len. lia.
Qed.

End Compose.

(** X8: two pages in a row make one page.  When the page of [f >= 1]
    items that starts at [s] has a next page, the page of [g] items asked
    for with its [end_cursor] as [after] continues it: the edges of both,
    put together, are the edges of the page of [f + g] items that starts
    at [s], cursors included, and both report the same next page. *)
Theorem from_nodes_pages_compose {A : Type} (nodes : collection A)
    (tc : option Z) (after : option string) (s f g : Z) :
  small nodes -> valid_count nodes tc ->
  after_start after 0 = Ok s -> 0 <= s ->
  1 <= f -> 0 <= g -> f + g <= max_results -> s + f < len (items nodes) ->
  exists c1 cur c2 c12,
    from_nodes nodes tc None after (Some f) None = Ok c1
    /\ has_next_page (page_info c1) = true
    /\ end_cursor (page_info c1) = Some cur
    /\ from_nodes nodes tc None (Some cur) (Some g) None = Ok c2
    /\ from_nodes nodes tc None after (Some (f + g)) None = Ok c12
    /\ edges c1 ++ edges c2 = edges c12
    /\ has_next_page (page_info c2) = has_next_page (page_info c12).
Proof.
  intros Hsmall Htc H1 Hs Hf Hg Hfg Hn. unfold max_results in Hfg.
  destruct (forward_page nodes tc after (Some f) s) as
    (c1 & Hc1 & He1 & Hn1 & _ & Hend1);
    [done|done|unfold valid_limit, max_results; lia|done|lia|].
  destruct (forward_page nodes tc (Some (cursor_of (s + f - 1))) (Some g) (s + f))
    as (c2 & Hc2 & He2 & Hn2 & _);
    [done|done|unfold valid_limit, max_results; lia| |lia|].
  { rewrite after_start_cursor. f_equal. lia. }
  destruct (forward_page nodes tc after (Some (f + g)) s) as
    (c12 & Hc12 & He12 & Hn12 & _);
    [done|done|unfold valid_limit, max_results; lia|done|lia|].
  unfold page_size in *. cbn [default from_option id] in *.
  exists c1, (cursor_of (s + f - 1)), c2, c12.
  assert (length (take (Z.to_nat f) (drop (Z.to_nat s) (items nodes)))
          = Z.to_nat f) as Hlen1.
  { rewrite length_take, length_drop. unfold len in Hn. lia. }
  split; [done|]. split; [rewrite Hn1; apply bool_decide_true; lia|].
  split.
  { rewrite Hend1, He1, last_make_edges.
    destruct (last (take (Z.to_nat f) (drop (Z.to_nat s) (items nodes))))
      as [v|] eqn:Hlast.
    - cbn. unfold cursor_of, len. rewrite Hlen1. do 3 f_equal. lia.
    - apply last_None in Hlast. rewrite Hlast in Hlen1. cbn in Hlen1. lia. }
  split; [done|]. split; [done|]. split.
  - rewrite He1, He2, He12.
    replace (Z.to_nat (f + g)) with (Z.to_nat f + Z.to_nat g)%nat by lia.
    rewrite <- (take_take_drop _ (Z.to_nat f) (Z.to_nat g)), make_edges_app.
    unfold len. rewrite Hlen1, drop_drop.
    replace (Z.to_nat (s + f)) with (Z.to_nat s + Z.to_nat f)%nat by lia.
    do 2 f_equal. lia.
  - rewrite Hn2, Hn12. repeat case_bool_decide; lia.
Qed.

Lemma from_nodes_pages_compose_witness :
  exists c1 cur c2 c12,
    from_nodes (mkCollection ["a"; "b"; "c"; "d"; "e"] false true true) None
      None None (Some 2) None = Ok c1
    /\ has_next_page (page_info c1) = true
    /\ end_cursor (page_info c1) = Some cur
    /\ from_nodes (mkCollection ["a"; "b"; "c"; "d"; "e"] false true true) None
         None (Some cur) (Some 2) None = Ok c2
    /\ from_nodes (mkCollection ["a"; "b"; "c"; "d"; "e"] false true true) None
         None None (Some (2 + 2)) None = Ok c12
    /\ edges c1 ++ edges c2 = edges c12
    /\ has_next_page (page_info c2) = has_next_page (page_info c12).
Proof.
  apply (from_nodes_pages_compose
           (mkCollection ["a"; "b"; "c"; "d"; "e"] false true true)
           None None 0 2 2).
  - unfold small. change (5 + 100 < 2 ^ 63 - 1). lia.
  - exact I.
  - reflexivity.
  - lia.
  - lia.
  - lia.
  - change (2 + 2 <= 100). lia.
  - change (0 + 2 < 5). lia.
Defined.

(** X9: an empty collection, without cursors.  With [first] and [last]
    absent or within the bounds, the page has no edge, no next page, no
    previous page and no cursor, when the collection is sized or when
    [first] and [last] are not both given. *)
Theorem from_nodes_empty {A : Type} (nodes : collection A)
    (first last : option Z) :
  items nodes = [] -> valid_limit first -> valid_limit last ->
  sized nodes \/ first = None \/ last = None ->
  exists c,
    from_nodes nodes None None None first last = Ok c
    /\ edges c = []
    /\ page_info c = mkPageInfo false false None None.
Proof.
  intros Hitems Hf Hl Hkind. pose proof sys_maxsize_pos as HM.
  assert (len (items nodes) = 0) as Hn by (by rewrite Hitems).
  set (kc := known_count nodes None).
  assert (kc = Some 0 \/ (kc = None /\ ~ sized nodes)) as Hkc.
  { destruct (decide (sized nodes)) as [Hs|Hs].
    - left. unfold kc. by rewrite known_count_sized, Hn.
    - right. split; [by apply known_count_unsized|done]. }
  set (e0 := default sys_maxsize kc).
  destruct (first_window_valid_Ok first 0 e0 Hf) as [e2 H3].
  pose proof (first_window_Ok _ _ _ _ H3) as He2.
  assert (exists e2', e2 = Some e2' /\ 0 <= e2'
                      /\ (e2' = 0 \/ (~ sized nodes /\ e2' = sys_maxsize
                                      /\ first = None)
                          \/ (~ sized nodes /\ last = None)))
    as (e2' & -> & He2' & Hcase).
  { unfold valid_limit, max_results, e0 in *.
    destruct first as [f|]; [destruct He2 as [_ ->]|subst e2];
      (eexists; split; [done|]);
      destruct Hkc as [->|[-> Hns]]; cbn; (split; [lia|]);
      try (left; lia); destruct Hkind as [?|[?|?]]; try done; auto. }
  destruct (last_window_valid_Ok last nodes kc 0 e2' Hl)
    as [[[[nodes' tc'] s] e3] H4].
  pose proof (last_window_Ok _ _ _ _ _ _ _ _ _ H4) as Hlast.
  assert (s = 0 /\ items nodes' = []
          /\ (e3 = None \/ exists e, e3 = Some e /\ 0 <= e)) as (-> & Hit' & He3).
  { unfold valid_limit, max_results in *. destruct last as [l|].
    - destruct Hlast as [_ Hlast]. case_bool_decide.
      + cbn zeta in Hlast. destruct Hlast as (-> & _ & -> & ->).
        split; [|split; [by destruct kc|by left]].
        destruct Hkc as [->|[-> _]]; cbn; lia.
      + destruct Hlast as (-> & _ & -> & ->).
        destruct Hcase as [->|[(_ & ? & _)|(_ & ?)]]; [|done..].
        split; [lia|]. split; [done|]. right. by exists 0.
    - destruct Hlast as (-> & _ & -> & ->). split; [done|]. split; [done|].
      right. by eauto. }
  destruct (clamp_window 0 e3) as [e4 expected] eqn:H5.
  assert (0 <= expected /\ fetch nodes' 0 e4 = Ok []) as [Hexp H6].
  { unfold clamp_window, max_results in H5.
    destruct He3 as [->|(e & -> & He)].
    - rewrite bool_decide_false in H5 by done. cbn in H5. injection H5 as <- <-.
      split; [done|]. rewrite fetch_from, Hit'; [done..|right; lia].
    - assert (exists e', e4 = Some e' /\ 0 <= e' <= 100 /\ 0 <= expected)
        as (e' & -> & He' & Hexp).
      { case_bool_decide; [|destruct (Z.gtb_spec (e - 0) 100)];
          injection H5 as <- <-; eexists; (split; [done|]); lia. }
      split; [done|]. rewrite fetch_to, Hit'; [|lia|lia|right; lia].
      by rewrite drop_nil, take_nil. }
  eexists. split.
  { apply from_nodes_Ok.
    eexists 0, (Some e0), (Some e2'), nodes', tc', 0, e3, e4, expected, [].
    repeat split; done. }
  unfold make_connection, len. cbn [make_edges imap length].
  rewrite bool_decide_false by (cbn; lia). done.
Qed.

Lemma from_nodes_empty_witness :
  exists c,
    from_nodes (mkCollection ([] : list string) false false false) None None
      None None (Some 5) = Ok c
    /\ edges c = []
    /\ page_info c = mkPageInfo false false None None.
Proof.
  apply (from_nodes_empty (mkCollection ([] : list string) false false false)
           None (Some 5)).
  - reflexivity.
  - exact I.
  - change (0 <= 5 <= 100). lia.
  - right. left. reflexivity.
Defined.

(** With both [first] and [last], an empty generator reports a previous
    page: the window of [last] is cut out of the [first] items that are
    asked for, not out of those that are there. *)
Example from_nodes_empty_generator_first_last :
  from_nodes (mkCollection ([] : list string) false false false) None None
    None (Some 5) (Some 2)
  = Ok (mkConnection (mkPageInfo false true None None) [] None).
Proof. vm_compute. reflexivity. Qed.

(** ** The cache of node types *)

Section TypeCache.
Context {entity : Type}.
Variable class_of : entity -> string.
Variable issubclass : string -> string -> bool.

(** [resolve_type] by cases: a cached class, a class that the schema
    knows and that is cached, or a failed assertion. *)
Lemma resolve_type_cases (self : GlobalID) (info : Info entity) (w : world entity) :
  resolve_type self info w
  = match nodes_cache w !! (schema_id (schema info), type_name self) with
    | Some c => (w, Ok c)
    | None =>
        match node_type_of info (type_name self) with
        | Some c =>
            (mkWorld (<[(schema_id (schema info), type_name self) := c]>
                        (nodes_cache w)) (calls w), Ok c)
        | None => (w, Raise AssertionError)
        end
    end.
Proof.
  unfold resolve_type, node_type_of, origin_class.
  repeat case_match; congruence.
Qed.

Lemma resolve_type_Ok_cached (self : GlobalID) (info : Info entity)
    (w w1 : world entity) (c : py_class entity) :
  resolve_type self info w = (w1, Ok c) ->
  nodes_cache w1 !! (schema_id (schema info), type_name self) = Some c.
Proof.
  rewrite resolve_type_cases.
  destruct (nodes_cache w !! _) as [c'|] eqn:Hc.
  - by intros [= <- <-].
  - destruct (node_type_of info (type_name self)) as [c'|]; [|done].
    intros [= <- <-]. cbn [nodes_cache]. by rewrite lookup_insert_eq.
Qed.

(** X10: once a type name is resolved for a schema, the class is served
    from the cache: a later resolution of the same name, by any
    identifier and with any schema object that has the same [id], returns
    the same class and leaves the cache and the calls as they are,
    whatever that schema holds for the name. *)
Theorem resolve_type_cached (self self' : GlobalID) (info info' : Info entity)
    (w w1 : world entity) (c : py_class entity) :
  resolve_type self info w = (w1, Ok c) ->
  schema_id (schema info') = schema_id (schema info) ->
  type_name self' = type_name self ->
  resolve_type self' info' w1 = (w1, Ok c).
Proof.
  intros H%resolve_type_Ok_cached Hs Ht.
  unfold resolve_type. by rewrite Hs, Ht, H.
Qed.

(** X11: [resolve_type] keeps the cache sound and touches nothing but the
    entry of its own key: it makes no call, a class that it returns
    derives from [Node] and is cached under the key afterwards, and a
    failure is an [AssertionError] that leaves the state unchanged. *)
Theorem resolve_type_frame (self : GlobalID) (info : Info entity)
    (w w1 : world entity) (r : outcome (py_class entity)) :
  cache_sound w ->
  resolve_type self info w = (w1, r) ->
  cache_sound w1
  /\ calls w1 = calls w
  /\ (forall k, k <> (schema_id (schema info), type_name self) ->
                nodes_cache w1 !! k = nodes_cache w !! k)
  /\ match r with
     | Ok c =>
         cls_is_node c = true
         /\ nodes_cache w1 !! (schema_id (schema info), type_name self) = Some c
     | Raise e =>
         e = AssertionError /\ w1 = w
         /\ nodes_cache w !! (schema_id (schema info), type_name self) = None
     end.
Proof.
  intros Hsound. rewrite resolve_type_cases.
  destruct (nodes_cache w !! _) as [c|] eqn:Hc.
  { intros [= <- <-]. repeat split; try done. by eapply Hsound. }
  unfold node_type_of.
  destruct (get_type_by_name (schema info) (type_name self)) as [[o|]|];
    [|by intros [= <- <-]..].
  destruct (cls_is_node (origin_class o)) eqn:Hn; [|by intros [= <- <-]].
  intros [= <- <-]. cbn [nodes_cache calls]. repeat split.
  - intros k c. cbn [nodes_cache].
    destruct (decide (k = (schema_id (schema info), type_name self)))
      as [->|Hk].
    + rewrite lookup_insert_eq. by intros [= <-].
    + rewrite lookup_insert_ne by done. apply Hsound.
  - intros k Hk. by rewrite lookup_insert_ne.
  - done.
  - by rewrite lookup_insert_eq.
Qed.

(** X12: every failure of [resolve_node] is of one of four sorts: the
    type cannot be resolved ([AssertionError], no callback is called and
    the state is unchanged); the callback, called once, raised; the
    callback returned a node, at once or as an awaitable, and
    [ensure_type] is a [Union] ([TypeError] of line 215); or the callback
    returned a node at once that is not an instance of the class or of a
    member of the [Awaitable[Union[...]]] that [ensure_type] names
    ([TypeError]).  Without [ensure_type] no [TypeError] comes from
    [resolve_node] itself, and an awaitable never makes the call fail
    unless [ensure_type] is a [Union]. *)
Theorem resolve_node_raises (self : GlobalID) (info : Info entity)
    (required : bool) (ensure_type : option type_hint)
    (w w2 : world entity) (e : exn) :
  resolve_node class_of issubclass self info required ensure_type w
  = (w2, Raise e) ->
  let req := required || bool_decide (ensure_type <> None) in
  (e = AssertionError /\ w2 = w
   /\ nodes_cache w !! (schema_id (schema info), type_name self) = None
   /\ node_type_of info (type_name self) = None)
  \/ exists c,
       calls w2 = calls w ++ [(cls_name c, node_id self, req)]
       /\ nodes_cache w2 !! (schema_id (schema info), type_name self) = Some c
       /\ (cls_resolve_node c (node_id self) req = Raise e
           \/ exists node t,
                e = TypeError /\ ensure_type = Some t
                /\ cls_resolve_node c (node_id self) req = Ok node
                /\ match t, node with
                   | _, NoNode => False
                   | UnionOf _, _ => True
                   | _, Later _ => False
                   | Class k, ANode n | AwaitableOf (Class k), ANode n =>
                       issubclass (class_of n) k = false
                   | AwaitableOf (UnionOf ms), ANode n =>
                       existsb (issubclass (class_of n)) ms = false
                   | AwaitableOf (AwaitableOf _), ANode n => True
                   end).
Proof.
  intros Hrun req. unfold resolve_node in Hrun. fold req in Hrun.
  destruct (resolve_type self info w) as [w1 [c|e1]] eqn:Hty.
  - right. exists c.
    pose proof (resolve_type_calls _ _ _ _ _ Hty) as Hcalls.
    pose proof (resolve_type_Ok_cached _ _ _ _ _ Hty) as Hcache.
    destruct (cls_resolve_node c (node_id self) req) as [node|e1] eqn:Hcb.
    + injection Hrun as <- Hens. cbn [calls nodes_cache].
      rewrite Hcalls. split; [done|]. split; [done|]. right.
      pose proof (ensure_cases class_of issubclass node ensure_type) as Hc.
      destruct node as [|n|a], ensure_type as [[k|ms|[k|ms|t']]|];
        try (rewrite Hc in Hens; discriminate Hens);
        try (destruct Hc as (a' & Hc & _); rewrite Hc in Hens;
             discriminate Hens);
        rewrite Hc in Hens;
        try (destruct (issubclass (class_of n) k) eqn:Hk; [discriminate Hens|]);
        try (destruct (existsb (issubclass (class_of n)) ms) eqn:Hk;
             [discriminate Hens|]);
        injection Hens as <-; by eexists _, _.
    + injection Hrun as <- <-. cbn [calls nodes_cache].
      rewrite Hcalls. split; [done|]. split; [done|]. by left.
  - left. injection Hrun as <- <-.
    rewrite resolve_type_cases in Hty.
    destruct (nodes_cache w !! _) as [c'|]; [done|].
    destruct (node_type_of info (type_name self)) as [c'|]; [done|].
    by injection Hty as <- <-.
Qed.

End TypeCache.

(** The type ["Fruit"] is resolved with the schema of the examples; a
    schema object that took its [id] and knows no type still resolves
    it. *)
Lemma resolve_type_cached_witness :
  resolve_type (mkGlobalID "Fruit" "2") (mkInfo (mkSchema 7 (fun _ => None)))
    (mkWorld (<[(7, "Fruit") := fruit_class]> ∅) [])
  = (mkWorld (<[(7, "Fruit") := fruit_class]> ∅) [], Ok fruit_class).
Proof.
  apply (resolve_type_cached (mkGlobalID "Fruit" "1") (mkGlobalID "Fruit" "2")
           fruit_info (mkInfo (mkSchema 7 (fun _ => None))) (mkWorld ∅ [])).
  - unfold resolve_type; cbn [nodes_cache]; rewrite lookup_empty; reflexivity.
  - reflexivity.
  - reflexivity.
Defined.

Lemma resolve_type_frame_witness :
  cache_sound (mkWorld (<[(7, "Fruit") := fruit_class]> ∅) [])
  /\ calls (mkWorld (<[(7, "Fruit") := fruit_class]> ∅) []) = []
  /\ (forall k, k <> (7, "Fruit") ->
        nodes_cache (mkWorld (<[(7, "Fruit") := fruit_class]> ∅) []) !! k
        = (∅ : gmap (Z * string) (py_class string)) !! k)
  /\ cls_is_node fruit_class = true
  /\ nodes_cache (mkWorld (<[(7, "Fruit") := fruit_class]> ∅) [])
       !! (7, "Fruit") = Some fruit_class.
Proof.
  apply (resolve_type_frame (mkGlobalID "Fruit" "1") fruit_info
           (mkWorld ∅ []) _ (Ok fruit_class)).
  - intros k c. cbn [nodes_cache]. by rewrite lookup_empty.
  - unfold resolve_type; cbn [nodes_cache]; rewrite lookup_empty; reflexivity.
Defined.

(** A fruit, where a fruit or a vegetable is expected. *)
Lemma resolve_node_raises_witness :
  (TypeError = AssertionError
   /\ mkWorld (<[(7, "Fruit") := fruit_class]> ∅) [("Fruit", "1", true)]
      = mkWorld ∅ []
   /\ (∅ : gmap (Z * string) (py_class string)) !! (7, "Fruit") = None
   /\ node_type_of fruit_info "Fruit" = None)
  \/ exists c : py_class string,
       [("Fruit", "1", true)] = [] ++ [(cls_name c, "1", true)]
       /\ (<[(7, "Fruit") := fruit_class]> ∅ : gmap (Z * string) (py_class string))
            !! (7, "Fruit") = Some c
       /\ (cls_resolve_node c "1" true = Raise TypeError
           \/ exists node t,
                TypeError = TypeError
                /\ Some (UnionOf ["Vegetable"; "Fruit"]) = Some t
                /\ cls_resolve_node c "1" true = Ok node
                /\ match t, node with
                   | _, NoNode => False
                   | UnionOf _, _ => True
                   | _, Later _ => False
                   | Class k, ANode n | AwaitableOf (Class k), ANode n =>
                       String.eqb (id n) k = false
                   | AwaitableOf (UnionOf ms), ANode n =>
                       existsb (String.eqb (id n)) ms = false
                   | AwaitableOf (AwaitableOf _), ANode n => True
                   end).
Proof.
  assert (resolve_node id String.eqb (mkGlobalID "Fruit" "1") fruit_info
            false (Some (UnionOf ["Vegetable"; "Fruit"])) (mkWorld ∅ [])
          = (mkWorld (<[(7, "Fruit") := fruit_class]> ∅) [("Fruit", "1", true)],
             Raise TypeError)) as Hrun
    by (unfold resolve_node, resolve_type; cbn [nodes_cache];
        rewrite lookup_empty; reflexivity).
  exact (resolve_node_raises id String.eqb (mkGlobalID "Fruit" "1") fruit_info
           false (Some (UnionOf ["Vegetable"; "Fruit"])) (mkWorld ∅ [])
           (mkWorld (<[(7, "Fruit") := fruit_class]> ∅) [("Fruit", "1", true)])
           TypeError Hrun).
Defined.

(** ** The id field of a node *)

Section NodeIdFacts.
Context {R : Type}.
Implicit Types (cls : node_methods R) (root_class : option (node_methods R))
  (info : id_info R) (root : R).

(** The constructor on two strings is the constructor of [from_id]. *)
Lemma GlobalID_new_str (t n : string) :
  GlobalID_new (IdStr t) (IdStr n) = GlobalID_init t n.
Proof. reflexivity. Qed.

Lemma GlobalID_new_node_id (t : string) (v : id_value) :
  GlobalID_new (IdStr t) v
  = match v with
    | IdStr s => Ok (mkGlobalID t s)
    | _ => Raise (GlobalIDValueError
                    ("node_id is expected to be a string, found " +:+ id_repr v))
    end.
Proof. by destruct v. Qed.

Lemma truthy_Some (o : option string) :
  truthy o = true -> exists t, o = Some t /\ t <> EmptyString.
Proof. destruct o as [[|c t]|]; try done. intros _. by eexists. Qed.

(** [Node.id] on an id that is returned at once. *)
Lemma Node_id_now cls root_class info root (v : id_value) (t : string) :
  id_resolver cls root_class info root = Ok (IdNow v) ->
  typename_resolver cls root_class root = Ok (Some t) ->
  t <> EmptyString ->
  Node_id cls root_class info root
  = if plain_id v then Ok (GidNow (mkGlobalID t (id_str v)))
    else Raise (GlobalIDValueError
                  ("node_id is expected to be a string, found " +:+ id_repr v)).
Proof.
  intros Hid Htn Ht. unfold Node_id. rewrite Hid, Htn.
  cbn [mbind outcome_bind]. destruct t as [|c t]; [done|].
  by destruct v.
Qed.

(** X13: the id field of a node whose id is a [str], an [int], a [bool]
    or a [UUID] is the [GlobalID] of its type name and of the text of the
    id; when neither is empty and neither holds the separator, [from_id]
    reads this [GlobalID] back from its token. *)
Theorem Node_id_roundtrip cls root_class info root (v : id_value) (t : string) :
  id_resolver cls root_class info root = Ok (IdNow v) ->
  typename_resolver cls root_class root = Ok (Some t) ->
  plain_id v = true ->
  t <> EmptyString -> id_str v <> EmptyString ->
  Base64.contains Base64.separator t = false ->
  Base64.contains Base64.separator (id_str v) = false ->
  Node_id cls root_class info root = Ok (GidNow (mkGlobalID t (id_str v)))
  /\ from_id (GlobalID_str (mkGlobalID t (id_str v)))
     = Ok (mkGlobalID t (id_str v)).
Proof.
  intros Hid Htn Hv Ht Hs Hsep Hsep'. split.
  - by rewrite (Node_id_now _ _ _ _ v t), Hv.
  - unfold from_id, GlobalID_str. cbn [type_name node_id].
    by rewrite from_base64_to_base64.
Qed.

(** X14: an [int] id comes back from the client: the field is the
    [GlobalID] of the decimal text of the number, its token is read by
    [from_id], and [int] of the node id read is the number. *)
Theorem Node_id_int_roundtrip cls root_class info root (n : Z) (t : string) :
  id_resolver cls root_class info root = Ok (IdNow (IdInt n)) ->
  typename_resolver cls root_class root = Ok (Some t) ->
  t <> EmptyString ->
  Base64.contains Base64.separator t = false ->
  exists g,
    Node_id cls root_class info root = Ok (GidNow g)
    /\ from_id (GlobalID_str g) = Ok g
    /\ type_name g = t
    /\ PyInt.int (node_id g) = Ok n.
Proof.
  intros Hid Htn Ht Hsep. exists (mkGlobalID t (PyInt.str n)).
  split; [by rewrite (Node_id_now _ _ _ _ (IdInt n) t)|].
  split; [|split; [done|apply PyIntFacts.int_str]].
  unfold from_id, GlobalID_str. cbn [type_name node_id].
  rewrite from_base64_to_base64; try done;
    [apply PyIntFacts.str_nonempty|apply PyIntFacts.str_no_separator].
Qed.

(** X15: an id that is awaitable is not looked at when the field is
    resolved: the field is an awaitable, and awaiting it gives the
    [GlobalID] of an awaited [str] and raises [GlobalIDValueError] for
    any other awaited value, an [int] or a [UUID] included, which are
    converted only when they are returned at once. *)
Theorem Node_id_deferred cls root_class info root
    (a : awaitable id_value) (t : string) :
  id_resolver cls root_class info root = Ok (IdLater a) ->
  typename_resolver cls root_class root = Ok (Some t) ->
  t <> EmptyString ->
  exists a',
    Node_id cls root_class info root = Ok (GidLater a')
    /\ await a'
       = match await a with
         | Ok (IdStr s) => Ok (mkGlobalID t s)
         | Ok v =>
             Raise (GlobalIDValueError
                      ("node_id is expected to be a string, found "
                       +:+ id_repr v))
         | Raise e => Raise e
         end.
Proof.
  intros Hid Htn Ht. unfold Node_id. rewrite Hid, Htn.
  cbn [mbind outcome_bind]. destruct t as [|c t]; [done|].
  cbn [truthy py_assert default]. eexists. split; [reflexivity|].
  cbn [await]. destruct a as [[v|e]]; cbn [await]; [|done].
  by destruct v.
Qed.

(** X16: every failure of [Node.id] is of one of four sorts: the
    [resolve_id] that was picked raised; [resolve_typename] raised; the
    type name is [None] or empty ([AssertionError]); or the id, returned
    at once, is not a [str], an [int] or a [UUID]
    ([GlobalIDValueError]).  An awaitable id never makes the call
    fail. *)
Theorem Node_id_raises cls root_class info root (e : exn) :
  Node_id cls root_class info root = Raise e ->
  id_resolver cls root_class info root = Raise e
  \/ (exists r, id_resolver cls root_class info root = Ok r
                /\ typename_resolver cls root_class root = Raise e)
  \/ (exists r o, id_resolver cls root_class info root = Ok r
                  /\ typename_resolver cls root_class root = Ok o
                  /\ truthy o = false /\ e = AssertionError)
  \/ (exists repr t, id_resolver cls root_class info root = Ok (IdNow (IdOther repr))
                     /\ typename_resolver cls root_class root = Ok (Some t)
                     /\ t <> EmptyString
                     /\ e = GlobalIDValueError
                            ("node_id is expected to be a string, found "
                             +:+ repr)).
Proof.
  unfold Node_id.
  destruct (id_resolver cls root_class info root) as [r|e1] eqn:Hid;
    cbn [mbind outcome_bind]; [|intros [= <-]; by left].
  destruct (typename_resolver cls root_class root) as [o|e1] eqn:Htn;
    cbn [mbind outcome_bind]; [|intros [= <-]; right; left; by eauto].
  destruct (truthy o) eqn:Ho; cbn [py_assert mbind outcome_bind].
  2:{ intros [= <-]. right; right; left. by eexists _, _. }
  apply truthy_Some in Ho as (t & -> & Ht). cbn [default].
  destruct r as [v|a]; [|done].
  destruct v; cbn; try done.
  intros [= <-]. right. right. right. by eexists _, _.
Qed.

End NodeIdFacts.

(** ** Tokens that are read *)

(** X17: a token that [from_id] reads gives an identifier in normal form:
    both fields are non-empty, the type name holds no separator, and the
    token of the identifier is read as the same identifier. *)
Theorem from_id_normal (value : string) (g : GlobalID) :
  from_id value = Ok g ->
  type_name g <> EmptyString /\ node_id g <> EmptyString
  /\ Base64.contains Base64.separator (type_name g) = false
  /\ from_id (GlobalID_str g) = Ok g.
Proof.
  unfold from_id at 1.
  destruct (from_base64 value) as [[t v]|e] eqn:Hd; [|by case_match].
  intros [= <-]. cbn [type_name node_id].
  apply from_base64_fields in Hd as (Ht & Hv & Hsep & Hsep' & _).
  repeat split; try done.
  unfold from_id, GlobalID_str. cbn [type_name node_id].
  by rewrite from_base64_to_base64.
Qed.

(** The id of an object that is not a [Node], under a parent type whose
    origin gives a [UUID]. *)
Lemma Node_id_roundtrip_witness :
  Node_id fruit_methods None uuid_parent 7
  = Ok (GidNow (mkGlobalID "Fruit" "123e4567-e89b-12d3-a456-426614174000"))
  /\ from_id (GlobalID_str
                (mkGlobalID "Fruit" "123e4567-e89b-12d3-a456-426614174000"))
     = Ok (mkGlobalID "Fruit" "123e4567-e89b-12d3-a456-426614174000").
Proof.
  apply (Node_id_roundtrip fruit_methods None uuid_parent 7
           (IdUUID "123e4567-e89b-12d3-a456-426614174000") "Fruit");
    [reflexivity|reflexivity|reflexivity|discriminate|discriminate
    |reflexivity|reflexivity].
Defined.

(** An id with the separator in it gives a [GlobalID] whose token
    [from_id] refuses. *)
Example Node_id_separator :
  Node_id (mkMethods (fun _ : Z => Ok (IdNow (IdStr "1:2")))
                     (fun _ => Ok (Some "Fruit"))) None no_parent 7
  = Ok (GidNow (mkGlobalID "Fruit" "1:2"))
  /\ from_id (GlobalID_str (mkGlobalID "Fruit" "1:2"))
     = Raise (GlobalIDValueError "expected to contain 2 items").
Proof. vm_compute. done. Qed.

Lemma Node_id_int_roundtrip_witness :
  exists g,
    Node_id fruit_methods (Some fruit_methods) no_parent 42 = Ok (GidNow g)
    /\ from_id (GlobalID_str g) = Ok g
    /\ type_name g = "Fruit"
    /\ PyInt.int (node_id g) = Ok 42.
Proof.
  apply (Node_id_int_roundtrip fruit_methods (Some fruit_methods) no_parent
           42 42 "Fruit"); [reflexivity|reflexivity|discriminate|reflexivity].
Defined.

(** The number 42, awaited, is refused. *)
Lemma Node_id_deferred_witness :
  exists a',
    Node_id later_methods (Some later_methods) no_parent 42 = Ok (GidLater a')
    /\ await a'
       = Raise (GlobalIDValueError "node_id is expected to be a string, found 42").
Proof.
  apply (Node_id_deferred later_methods (Some later_methods) no_parent 42
           (Deferred (Ok (IdInt 42))) "Fruit");
    [reflexivity|reflexivity|discriminate].
Defined.

(** A floating-point id is refused at once. *)
Lemma Node_id_raises_witness :
  id_resolver float_methods None no_parent 7
  = Raise (GlobalIDValueError "node_id is expected to be a string, found 3.5")
  \/ (exists r, id_resolver float_methods None no_parent 7 = Ok r
                /\ typename_resolver float_methods None 7
                   = Raise (GlobalIDValueError
                              "node_id is expected to be a string, found 3.5"))
  \/ (exists r o, id_resolver float_methods None no_parent 7 = Ok r
                  /\ typename_resolver float_methods None 7 = Ok o
                  /\ truthy o = false
                  /\ GlobalIDValueError
                       "node_id is expected to be a string, found 3.5"
                     = AssertionError)
  \/ (exists repr t,
        id_resolver float_methods None no_parent 7 = Ok (IdNow (IdOther repr))
        /\ typename_resolver float_methods None 7 = Ok (Some t)
        /\ t <> EmptyString
        /\ GlobalIDValueError "node_id is expected to be a string, found 3.5"
           = GlobalIDValueError
               ("node_id is expected to be a string, found " +:+ repr)).
Proof.
  apply (Node_id_raises float_methods None no_parent 7
           (GlobalIDValueError "node_id is expected to be a string, found 3.5")).
  reflexivity.
Defined.

(** The token of ["Fruit:1"]. *)
Lemma from_id_normal_witness :
  "Fruit" <> EmptyString /\ "1" <> EmptyString
  /\ Base64.contains Base64.separator "Fruit" = false
  /\ from_id (GlobalID_str (mkGlobalID "Fruit" "1")) = Ok (mkGlobalID "Fruit" "1").
Proof.
  apply (from_id_normal "RnJ1aXQ6MQ==" (mkGlobalID "Fruit" "1")).
  reflexivity.
Defined.
